(** * Rechnungsscanner: date handling, CSV export, upload log and
      submission pipeline of [src/ReceiptScannerApp.tsx]

    A shallow embedding of the pure helpers ([formatDate],
    [parseGermanDate], [entriesToCSV], [validateWebhookUrl],
    [formatFileSize]) and of the state updates of the root component
    ([updateUploadLog], [handleRenameUploadLog], [handleRemoveUploadLog],
    [processFile], [handleUpdateEntry], and [handleSave] of the two edit
    forms), followed by the properties proved about them.

    JavaScript strings are modelled by [string]; [null]/[undefined] by
    [option]; React state by explicit state passing.  What the browser
    provides (the [Date] parser and the local time zone, the [URL] parser,
    [JSON.parse], [fetch]) is a field of the record [Platform] or an
    argument of the function that uses it. *)

From Stdlib Require Import ZArith List Bool Ascii String Lia.
From Stdlib Require Import DecimalString.
Import ListNotations.

Local Open Scope string_scope.
Local Open Scope Z_scope.

(* ================================================================== *)
(** * Part I: definitions *)
(* ================================================================== *)

(** ** JavaScript string primitives used by the source *)

Module JS.

(** [\d] of a regular expression without the [u] flag: ASCII 0-9. *)
Definition isDigit (c : ascii) : bool :=
  let n := nat_of_ascii c in (48 <=? n)%nat && (n <=? 57)%nat.

Fixpoint allDigits (s : string) : bool :=
  match s with
  | EmptyString => true
  | String c r => isDigit c && allDigits r
  end.

Definition digitVal (c : ascii) : Z := Z.of_nat (nat_of_ascii c) - 48.

Fixpoint parseDigits (acc : Z) (s : string) : Z :=
  match s with
  | EmptyString => acc
  | String c r => parseDigits (10 * acc + digitVal c) r
  end.

(** [Number.parseInt(s, 10)] on the strings the source passes to it: the
    capture groups of [\d] runs, never empty. *)
Definition parseInt (s : string) : Z := parseDigits 0 s.

(** Longest prefix of digits and the rest: a greedy [\d*]. *)
Fixpoint spanDigits (s : string) : string * string :=
  match s with
  | EmptyString => (EmptyString, EmptyString)
  | String c r =>
      if isDigit c
      then let (d, rest) := spanDigits r in (String c d, rest)
      else (EmptyString, s)
  end.

(** Exactly [n] digits: [\d{n}]. *)
Fixpoint takeDigits (n : nat) (s : string) : option (string * string) :=
  match n with
  | O => Some (EmptyString, s)
  | S n' =>
      match s with
      | EmptyString => None
      | String c r =>
          if isDigit c
          then match takeDigits n' r with
               | Some (d, rest) => Some (String c d, rest)
               | None => None
               end
          else None
      end
  end.

(** One literal character. *)
Definition takeChar (c : ascii) (s : string) : option string :=
  match s with
  | String c' r => if Ascii.eqb c' c then Some r else None
  | EmptyString => None
  end.

(** [s.split(sep)] for a one-character separator: never empty. *)
Fixpoint split (sep : ascii) (s : string) : list string :=
  match s with
  | EmptyString => [EmptyString]
  | String c r =>
      if Ascii.eqb c sep then EmptyString :: split sep r
      else match split sep r with
           | h :: t => String c h :: t
           | [] => [String c EmptyString]
           end
  end.

(** [rows.join(sep)]. *)
Definition join (sep : string) (l : list string) : string :=
  String.concat sep l.

(** [s.replace(/c/g, by)]: every occurrence of the character. *)
Fixpoint replaceAll (c : ascii) (by_ : string) (s : string) : string :=
  match s with
  | EmptyString => EmptyString
  | String c' r =>
      if Ascii.eqb c' c then by_ ++ replaceAll c by_ r
      else String c' (replaceAll c by_ r)
  end.

(** [s.replace("c", by)] with a string pattern: the first occurrence
    only. *)
Fixpoint replaceFirst (c : ascii) (by_ : string) (s : string) : string :=
  match s with
  | EmptyString => EmptyString
  | String c' r =>
      if Ascii.eqb c' c then by_ ++ r
      else String c' (replaceFirst c by_ r)
  end.

Fixpoint repeatChar (c : ascii) (n : nat) : string :=
  match n with
  | O => EmptyString
  | S n' => String c (repeatChar c n')
  end.

(** [s.padStart(n, "c")]. *)
Definition padStart (n : nat) (c : ascii) (s : string) : string :=
  repeatChar c (n - String.length s) ++ s.

(** [s.includes(p)]. *)
Fixpoint includes (p s : string) : bool :=
  String.prefix p s ||
  match s with
  | EmptyString => false
  | String _ r => includes p r
  end.

(** White space and line terminators of [String.prototype.trim] among the
    code units below 256. *)
Definition isWhite (c : ascii) : bool :=
  let n := nat_of_ascii c in
  ((9 <=? n)%nat && (n <=? 13)%nat) || (n =? 32)%nat || (n =? 160)%nat.

Fixpoint trimStart (s : string) : string :=
  match s with
  | EmptyString => EmptyString
  | String c r => if isWhite c then trimStart r else s
  end.

Fixpoint trimEnd (s : string) : string :=
  match s with
  | EmptyString => EmptyString
  | String c r =>
      match trimEnd r with
      | EmptyString => if isWhite c then EmptyString else String c EmptyString
      | r' => String c r'
      end
  end.

Definition trim (s : string) : string := trimEnd (trimStart s).

(** [String(n)] and template interpolation of an integer. *)
Definition ofZ (n : Z) : string := NilEmpty.string_of_int (Z.to_int n).

(** Truthiness of a string: [!s] is [true] on the empty string. *)
Definition truthy (s : string) : bool := negb (String.eqb s EmptyString).

(** [a || b] on strings. *)
Definition orElse (a b : string) : string := if truthy a then a else b.

(** [a ?? b]. *)
Definition nullish {A : Type} (a : option A) (b : A) : A :=
  match a with Some x => x | None => b end.

End JS.

(** ** Time values of ECMAScript (section "Date Objects")

    A time value is a number of milliseconds since the epoch, in UTC;
    [None] stands for [NaN], the time value of an invalid date. *)

Module EcmaDate.

Definition msPerDay : Z := 86400000.

Definition Day (t : Z) : Z := t / msPerDay.

Definition isLeap (y : Z) : bool :=
  (y mod 4 =? 0) && (negb (y mod 100 =? 0) || (y mod 400 =? 0)).

Definition DaysInYear (y : Z) : Z := if isLeap y then 366 else 365.

Definition DayFromYear (y : Z) : Z :=
  365 * (y - 1970) + (y - 1969) / 4 - (y - 1901) / 100 + (y - 1601) / 400.

(** The largest [y] with [DayFromYear y <= d]: an estimate from the mean
    year length, corrected by at most one year either way. *)
Definition YearFromDay (d : Z) : Z :=
  let y := 1970 + (400 * d) / 146097 in
  if DayFromYear (y + 1) <=? d then y + 1
  else if DayFromYear y <=? d then y
  else y - 1.

Definition YearFromTime (t : Z) : Z := YearFromDay (Day t).

Definition InLeapYear (t : Z) : Z :=
  if isLeap (YearFromTime t) then 1 else 0.

Definition DayWithinYear (t : Z) : Z :=
  Day t - DayFromYear (YearFromTime t).

(** Number of days of the year before month [m] (0-based); [leap] is 0
    or 1. *)
Definition daysBeforeMonth (leap m : Z) : Z :=
  match m with
  | 0 => 0
  | 1 => 31
  | 2 => 59 + leap
  | 3 => 90 + leap
  | 4 => 120 + leap
  | 5 => 151 + leap
  | 6 => 181 + leap
  | 7 => 212 + leap
  | 8 => 243 + leap
  | 9 => 273 + leap
  | 10 => 304 + leap
  | 11 => 334 + leap
  | _ => 365 + leap
  end.

(** Month number 0..11. *)
Definition MonthFromTime (t : Z) : Z :=
  let d := DayWithinYear t in
  let l := InLeapYear t in
  if d <? 31 then 0
  else if d <? 59 + l then 1
  else if d <? 90 + l then 2
  else if d <? 120 + l then 3
  else if d <? 151 + l then 4
  else if d <? 181 + l then 5
  else if d <? 212 + l then 6
  else if d <? 243 + l then 7
  else if d <? 273 + l then 8
  else if d <? 304 + l then 9
  else if d <? 334 + l then 10
  else 11.

(** Day of the month 1..31. *)
Definition DateFromTime (t : Z) : Z :=
  DayWithinYear t - daysBeforeMonth (InLeapYear t) (MonthFromTime t) + 1.

(** [MakeDay(year, month, date)], [month] 0-based and possibly out of
    0..11. *)
Definition MakeDay (year month date : Z) : Z :=
  let ym := year + month / 12 in
  let mn := month mod 12 in
  DayFromYear ym + daysBeforeMonth (if isLeap ym then 1 else 0) mn
  + date - 1.

Definition MakeTime (h m s ms : Z) : Z :=
  h * 3600000 + m * 60000 + s * 1000 + ms.

Definition MakeDate (day time : Z) : Z := day * msPerDay + time.

(** Days of month [m] (1-based) in year [y] of the proleptic Gregorian
    calendar. *)
Definition daysInMonth (y m : Z) : Z :=
  match m with
  | 2 => if isLeap y then 29 else 28
  | 4 | 6 | 9 | 11 => 30
  | _ => 31
  end.

End EcmaDate.

(** ** What the browser provides *)

(** A URL record, as far as the source reads it. *)
Record URL := { protocol : string }.

(** The payload of the webhook's answer after [JSON.parse], as far as the
    source reads it: the four properties, [None] when absent. *)
Record Payload := {
  p_vendor : option string;
  p_invoiceNumber : option string;
  p_invoiceDate : option string;
  p_totalAmount : option string
}.

Record Platform := {
  (** [LocalTime(t) = t + LocalTZA t]: offset of the local time zone in
      milliseconds at UTC time [t], positive east of Greenwich. *)
  LocalTZA : Z -> Z;
  (** Whether the [Date] parser accepts a day of month up to 31 in every
      month and carries the excess into the next month (as V8 does), or
      answers [NaN] (as the standard says). *)
  lenientDay : bool;
  (** The [Date] parser on strings that are not of the form
      [YYYY-MM-DDTHH:mm:ssZ]: other ISO forms and whatever else the
      implementation accepts; [None] is [NaN]. *)
  otherDateParse : string -> option Z;
  (** Whether the URL parser accepts what follows [scheme:]. *)
  urlRestOk : string -> string -> bool;
  (** [JSON.parse]: [None] when it throws a [SyntaxError]. *)
  JSON_parse : string -> option Payload;
  (** The message of that [SyntaxError]. *)
  jsonErrorMessage : string -> string
}.

Module JSDate.
Import JS EcmaDate.

(** The fields of a string of the form [YYYY-MM-DDTHH:mm:ssZ]. *)
Definition isoFields (s : string) : option (Z * Z * Z * Z * Z * Z) :=
  match takeDigits 4 s with
  | Some (y, s1) =>
  match takeChar "-" s1 with
  | Some s2 =>
  match takeDigits 2 s2 with
  | Some (m, s3) =>
  match takeChar "-" s3 with
  | Some s4 =>
  match takeDigits 2 s4 with
  | Some (d, s5) =>
  match takeChar "T" s5 with
  | Some s6 =>
  match takeDigits 2 s6 with
  | Some (hh, s7) =>
  match takeChar ":" s7 with
  | Some s8 =>
  match takeDigits 2 s8 with
  | Some (mi, s9) =>
  match takeChar ":" s9 with
  | Some s10 =>
  match takeDigits 2 s10 with
  | Some (ss, s11) =>
      if String.eqb s11 "Z"
      then Some (parseInt y, parseInt m, parseInt d,
                 parseInt hh, parseInt mi, parseInt ss)
      else None
  | None => None end
  | None => None end
  | None => None end
  | None => None end
  | None => None end
  | None => None end
  | None => None end
  | None => None end
  | None => None end
  | None => None end
  | None => None end.

(** [new Date(s)] for a string [s]: the time value, [None] for an invalid
    date. *)
Definition parse (pf : Platform) (s : string) : option Z :=
  match isoFields s with
  | Some (y, m, d, hh, mi, ss) =>
      let dmax := if lenientDay pf then 31 else daysInMonth y m in
      if (1 <=? m) && (m <=? 12) && (1 <=? d) && (d <=? dmax)
         && (mi <=? 59) && (ss <=? 59)
         && ((hh <=? 23) || ((hh =? 24) && (mi =? 0) && (ss =? 0)))
      then Some (MakeDate (MakeDay y (m - 1) d) (MakeTime hh mi ss 0))
      else None
  | None => otherDateParse pf s
  end.

Definition LocalTime (pf : Platform) (t : Z) : Z := t + LocalTZA pf t.

(** The getters read the date in local time; on an invalid date they
    answer [NaN]. *)
Definition getFullYear (pf : Platform) (d : option Z) : option Z :=
  option_map (fun t => YearFromTime (LocalTime pf t)) d.

Definition getMonth (pf : Platform) (d : option Z) : option Z :=
  option_map (fun t => MonthFromTime (LocalTime pf t)) d.

Definition getDate (pf : Platform) (d : option Z) : option Z :=
  option_map (fun t => DateFromTime (LocalTime pf t)) d.

(** [x !== n] for a getter result [x] and a number [n]; [NaN] differs
    from every number. *)
Definition differs (x : option Z) (n : Z) : bool :=
  match x with
  | Some v => negb (v =? n)
  | None => true
  end.

End JSDate.

(** ** The date helpers of the source *)

(** [/^\d{4}-\d{2}-\d{2}/.test(s)]. *)
Definition isoDatePrefix (s : string) : bool :=
  match JS.takeDigits 4 s with
  | Some (_, s1) =>
  match JS.takeChar "-" s1 with
  | Some s2 =>
  match JS.takeDigits 2 s2 with
  | Some (_, s3) =>
  match JS.takeChar "-" s3 with
  | Some s4 =>
  match JS.takeDigits 2 s4 with
  | Some _ => true
  | None => false end
  | None => false end
  | None => false end
  | None => false end
  | None => false end.

(** [!x] for an element of an array of strings that may be missing. *)
Definition missing (x : option string) : bool :=
  match x with
  | Some s => negb (JS.truthy s)
  | None => true
  end.

Definition formatDate (isoDate : option string) : string :=
  match isoDate with
  | None => "N/A"
  | Some s =>
      if negb (JS.truthy s) || negb (isoDatePrefix s) then "N/A"
      else
        let parts :=
          match nth_error (JS.split "T" s) 0 with
          | Some h => JS.split "-" h
          | None => []
          end in
        let year := nth_error parts 0 in
        let month := nth_error parts 1 in
        let day := nth_error parts 2 in
        if missing year || missing month || missing day then "N/A"
        else JS.nullish day "" ++ "." ++ JS.nullish month "" ++ "."
             ++ JS.nullish year ""
  end.

Definition lenIn (lo hi : nat) (s : string) : bool :=
  ((lo <=? String.length s) && (String.length s <=? hi))%nat.

(** [s.match(/^(\d{1,2})\.(\d{1,2})\.(\d{2,4})$/)]: the three groups.  No
    digit run contains the dot that must follow it, so each greedy group
    is the whole run of digits at its place. *)
Definition matchGermanDate (s : string) : option (string * string * string) :=
  let (day, r1) := JS.spanDigits s in
  if lenIn 1 2 day then
    match JS.takeChar "." r1 with
    | Some r2 =>
        let (month, r3) := JS.spanDigits r2 in
        if lenIn 1 2 month then
          match JS.takeChar "." r3 with
          | Some r4 =>
              let (year, r5) := JS.spanDigits r4 in
              if lenIn 2 4 year && String.eqb r5 "" then
                Some (day, month, year)
              else None
          | None => None
          end
        else None
    | None => None
    end
  else None.

Definition parseGermanDate (pf : Platform) (dateString : option string)
  : option string :=
  match dateString with
  | None => None
  | Some s =>
      if negb (JS.truthy s) then None
      else
        match matchGermanDate s with
        | None => None
        | Some (day0, month0, year0) =>
            let day := JS.padStart 2 "0" day0 in
            let month := JS.padStart 2 "0" month0 in
            let year :=
              if (String.length year0 =? 2)%nat then "20" ++ year0
              else year0 in
            let date :=
              JSDate.parse pf
                (year ++ "-" ++ month ++ "-" ++ day ++ "T00:00:00Z") in
            if JSDate.differs (JSDate.getFullYear pf date) (JS.parseInt year)
               || JSDate.differs
                    (option_map (fun m => m + 1) (JSDate.getMonth pf date))
                    (JS.parseInt month)
               || JSDate.differs (JSDate.getDate pf date) (JS.parseInt day)
            then None
            else Some (year ++ "-" ++ month ++ "-" ++ day)
        end
  end.

(** A browser for evaluation: its zone is [offsetHours] hours from
    Greenwich all year, its [Date] parser knows the ISO form only, its URL
    parser accepts whatever follows a scheme, and its [JSON.parse] refuses
    every text. *)
Definition browserAt (offsetHours : Z) (lenient : bool) : Platform :=
  {| LocalTZA := fun _ => offsetHours * 3600000;
     lenientDay := lenient;
     otherDateParse := fun _ => None;
     urlRestOk := fun _ _ => true;
     JSON_parse := fun _ => None;
     jsonErrorMessage := fun _ => "Unexpected token" |}.

(** ** CSV export *)

Record Entry := {
  vendor : string;
  invoiceNumber : string;
  invoiceDate : option string;
  totalAmount : string;
  imageName : string;
  capturedAt : string
}.

(** The double quote character. *)
Definition dquote : ascii := "034"%char.

Definition newline : string := String "010"%char EmptyString.

(** [escapeCell]: the value between two double quotes, every double quote
    inside it replaced by two. *)
Definition escapeCell (value : string) : string :=
  String dquote
    (JS.replaceAll dquote (String dquote (String dquote EmptyString)) value
     ++ String dquote EmptyString).

Definition csvHeader : list string :=
  ["Lieferant"; "Rechnungsnummer"; "Datum"; "Betrag"].

Definition csvRow (entry : Entry) : list string :=
  [ JS.orElse (vendor entry) "";
    JS.orElse (invoiceNumber entry) "";
    formatDate (invoiceDate entry);
    JS.replaceFirst "." "," (JS.nullish (Some (totalAmount entry)) "") ].

Definition entriesToCSV (entries : list Entry) : string :=
  let rows := map csvRow entries in
  let csvLines :=
    map (fun row => JS.join ";" (map escapeCell row)) (csvHeader :: rows) in
  JS.join newline csvLines.

(** ** Webhook URL validation *)

Module UrlParser.

Definition isAlpha (c : ascii) : bool :=
  let n := nat_of_ascii c in
  ((65 <=? n)%nat && (n <=? 90)%nat) || ((97 <=? n)%nat && (n <=? 122)%nat).

Definition lower (c : ascii) : ascii :=
  let n := nat_of_ascii c in
  if ((65 <=? n)%nat && (n <=? 90)%nat) then ascii_of_nat (n + 32) else c.

Definition isSchemeChar (c : ascii) : bool :=
  isAlpha c || JS.isDigit c
  || Ascii.eqb c "+" || Ascii.eqb c "-" || Ascii.eqb c ".".

(** C0 control or space. *)
Definition isC0OrSpace (c : ascii) : bool := (nat_of_ascii c <=? 32)%nat.

Definition isTabOrNewline (c : ascii) : bool :=
  let n := nat_of_ascii c in (n =? 9)%nat || (n =? 10)%nat || (n =? 13)%nat.

Fixpoint stripStart (s : string) : string :=
  match s with
  | EmptyString => EmptyString
  | String c r => if isC0OrSpace c then stripStart r else s
  end.

Fixpoint stripEnd (s : string) : string :=
  match s with
  | EmptyString => EmptyString
  | String c r =>
      match stripEnd r with
      | EmptyString =>
          if isC0OrSpace c then EmptyString else String c EmptyString
      | r' => String c r'
      end
  end.

Fixpoint removeTabNewline (s : string) : string :=
  match s with
  | EmptyString => EmptyString
  | String c r =>
      if isTabOrNewline c then removeTabNewline r
      else String c (removeTabNewline r)
  end.

(** The scheme state: the rest of the scheme, lower-cased, up to the
    colon, and what follows the colon. *)
Fixpoint schemeState (s : string) : option (string * string) :=
  match s with
  | EmptyString => None
  | String c r =>
      if Ascii.eqb c ":" then Some (EmptyString, r)
      else if isSchemeChar c then
        match schemeState r with
        | Some (sch, rest) => Some (String (lower c) sch, rest)
        | None => None
        end
      else None
  end.

(** The scheme start state; without a base URL an input that has no
    scheme is a failure. *)
Definition scanScheme (s : string) : option (string * string) :=
  match s with
  | String c r =>
      if isAlpha c then
        match schemeState r with
        | Some (sch, rest) => Some (String (lower c) sch, rest)
        | None => None
        end
      else None
  | EmptyString => None
  end.

(** [new URL(url)]: [None] when it throws. *)
Definition parse (pf : Platform) (url : string) : option URL :=
  match scanScheme (removeTabNewline (stripEnd (stripStart url))) with
  | Some (sch, rest) =>
      if urlRestOk pf sch rest then Some {| protocol := sch ++ ":" |}
      else None
  | None => None
  end.

End UrlParser.

Definition validateWebhookUrl (pf : Platform) (url : string) : bool :=
  if negb (JS.truthy url) then false
  else
    match UrlParser.parse pf url with
    | Some parsed =>
        String.eqb (protocol parsed) "https:"
        || String.eqb (protocol parsed) "http:"
    | None => false
    end.

(** ** File sizes

    [file.size] is a non-negative integer below 2^53, so every division by
    1024 is exact in floating point and [size] is the rational
    [bytes / den]; [toFixed] rounds it half up. *)

Definition units : list string := ["B"; "KB"; "MB"; "GB"; "TB"].

(** The loop [while (size >= 1024 && unitIndex < units.length - 1)]: at
    most [units.length - 1] rounds. *)
Fixpoint scaleSize (rounds : nat) (bytes den unitIndex : Z) : Z * Z :=
  match rounds with
  | O => (den, unitIndex)
  | S n =>
      if (1024 * den <=? bytes) && (unitIndex <? Z.of_nat (List.length units) - 1)
      then scaleSize n bytes (1024 * den) (unitIndex + 1)
      else (den, unitIndex)
  end.

(** [(num / den).toFixed(decimals)] for [decimals] 0 or 1 and a
    non-negative quotient below 10^21, where [toFixed] writes all the
    digits; from 10^21 on it answers in exponent notation, which no size
    below 2^53 reaches. *)
Definition toFixed (num den decimals : Z) : string :=
  if decimals =? 0 then JS.ofZ ((2 * num + den) / (2 * den))
  else
    let n := (20 * num + den) / (2 * den) in
    JS.ofZ (n / 10) ++ "." ++ JS.ofZ (n mod 10).

Definition formatFileSize (bytes : Z) : string :=
  if bytes <=? 0 then "0 B"
  else
    let (den, unitIndex) :=
      scaleSize (List.length units - 1) bytes 1 0 in
    let decimals :=
      if (10 * den <=? bytes) || (unitIndex =? 0) then 0 else 1 in
    toFixed bytes den decimals ++ " " ++ nth (Z.to_nat unitIndex) units "".

(** ** Upload log *)

Inductive Status := pending | success | error.

Record UploadLogEntry := {
  id : string;
  fileName : string;
  displayName : string;
  status : Status;
  timestamp : string;
  message : option string
}.

(** [Partial<UploadLogEntry> & { id: string; fileName?: string }]. *)
Record LogUpdate := {
  u_id : string;
  u_fileName : option string;
  u_displayName : option string;
  u_status : option Status;
  u_timestamp : option string;
  u_message : option string
}.

(** [a ?? b] where [b] may itself be missing. *)
Definition orNull {A : Type} (a b : option A) : option A :=
  match a with
  | Some _ => a
  | None => b
  end.

(** [prev.find((item) => item.id === i)]. *)
Definition findById (i : string) (prev : list UploadLogEntry)
  : option UploadLogEntry :=
  find (fun item => String.eqb (id item) i) prev.

(** The updater that [updateUploadLog] hands to [setUploadLog]; [now] is
    [new Date().toISOString()]. *)
Definition updateUploadLog (now : string) (entry : LogUpdate)
    (prev : list UploadLogEntry) : list UploadLogEntry :=
  let existing := findById (u_id entry) prev in
  let next :=
    {| id := u_id entry;
       fileName :=
         JS.nullish
           (orNull (u_fileName entry) (option_map fileName existing)) "";
       displayName :=
         JS.nullish
           (orNull (u_displayName entry)
              (orNull (option_map displayName existing)
                 (orNull (u_fileName entry) (option_map fileName existing))))
           "";
       status :=
         JS.nullish (orNull (u_status entry) (option_map status existing))
           pending;
       timestamp :=
         JS.nullish
           (orNull (u_timestamp entry) (option_map timestamp existing)) now;
       message :=
         orNull (u_message entry)
           (match existing with Some e => message e | None => None end) |} in
  let filtered :=
    filter (fun item => negb (String.eqb (id item) (u_id entry))) prev in
  firstn 5 (next :: filtered).

(** The updater of [handleRenameUploadLog], in a browser ([window] is
    defined); [prompt] is [window.prompt] with its default text, [None]
    when the user cancels. *)
Definition handleRenameUploadLog (prompt : string -> option string)
    (i : string) (prev : list UploadLogEntry) : list UploadLogEntry :=
  match findById i prev with
  | None => prev
  | Some target =>
      let currentName :=
        JS.trim (JS.orElse (displayName target)
                   (JS.orElse (fileName target) "")) in
      match prompt currentName with
      | None => prev
      | Some nextName =>
          let trimmed := JS.trim nextName in
          if negb (JS.truthy trimmed) then prev
          else
            map (fun item =>
                   if String.eqb (id item) i
                   then {| id := id item; fileName := fileName item;
                           displayName := trimmed; status := status item;
                           timestamp := timestamp item;
                           message := message item |}
                   else item) prev
      end
  end.

Definition handleRemoveUploadLog (i : string) (prev : list UploadLogEntry)
  : list UploadLogEntry :=
  filter (fun item => negb (String.eqb (id item) i)) prev.

(** The operations on the log, and a run of them from the initial state
    [useState<UploadLogEntry[]>([])]. *)
Inductive LogOp :=
| Upsert (now : string) (entry : LogUpdate)
| Rename (prompt : string -> option string) (i : string)
| Remove (i : string).

Definition applyLogOp (log : list UploadLogEntry) (op : LogOp)
  : list UploadLogEntry :=
  match op with
  | Upsert now entry => updateUploadLog now entry log
  | Rename prompt i => handleRenameUploadLog prompt i log
  | Remove i => handleRemoveUploadLog i log
  end.

Definition runLog (ops : list LogOp) : list UploadLogEntry :=
  fold_left applyLogOp ops [].

(** An update that names only an id. *)
Definition justId (i : string) : LogUpdate :=
  {| u_id := i; u_fileName := None; u_displayName := None;
     u_status := None; u_timestamp := None; u_message := None |}.

(** ** Application state and the submission pipeline *)

Inductive ThemeId := dark | light.

Record Settings := { webhookUrl : string; theme : ThemeId }.

Record File := { f_name : string; f_type : string; f_size : Z }.

Inductive FormValue :=
| FormFile (file : File) (name : string)
| FormText (text : string).

Record HttpRequest := {
  req_url : string;
  req_method : string;
  req_body : list (string * FormValue)
}.

(** The state of [ReceiptScannerApp] that the handlers below read or
    write ([errorMsg] is the state variable [error]), and what they did to
    the outside: the requests issued with [fetch] and the object URLs
    revoked, most recent first. *)
Record AppState := {
  settings : Settings;
  entries : list Entry;
  isLoading : bool;
  errorMsg : option string;
  lastResult : option Entry;
  lastPreviewUrl : option string;
  uploadLog : list UploadLogEntry;
  editingEntry : option Entry;
  requests : list HttpRequest;
  revoked : list string
}.

Definition setError (e : option string) (st : AppState) : AppState :=
  {| settings := settings st; entries := entries st;
     isLoading := isLoading st; errorMsg := e;
     lastResult := lastResult st; lastPreviewUrl := lastPreviewUrl st;
     uploadLog := uploadLog st; editingEntry := editingEntry st;
     requests := requests st; revoked := revoked st |}.

Definition setIsLoading (b : bool) (st : AppState) : AppState :=
  {| settings := settings st; entries := entries st;
     isLoading := b; errorMsg := errorMsg st;
     lastResult := lastResult st; lastPreviewUrl := lastPreviewUrl st;
     uploadLog := uploadLog st; editingEntry := editingEntry st;
     requests := requests st; revoked := revoked st |}.

Definition setEntries (f : list Entry -> list Entry) (st : AppState)
  : AppState :=
  {| settings := settings st; entries := f (entries st);
     isLoading := isLoading st; errorMsg := errorMsg st;
     lastResult := lastResult st; lastPreviewUrl := lastPreviewUrl st;
     uploadLog := uploadLog st; editingEntry := editingEntry st;
     requests := requests st; revoked := revoked st |}.

Definition setLastResult (f : option Entry -> option Entry) (st : AppState)
  : AppState :=
  {| settings := settings st; entries := entries st;
     isLoading := isLoading st; errorMsg := errorMsg st;
     lastResult := f (lastResult st); lastPreviewUrl := lastPreviewUrl st;
     uploadLog := uploadLog st; editingEntry := editingEntry st;
     requests := requests st; revoked := revoked st |}.

Definition setLastPreviewUrl (u : option string) (st : AppState) : AppState :=
  {| settings := settings st; entries := entries st;
     isLoading := isLoading st; errorMsg := errorMsg st;
     lastResult := lastResult st; lastPreviewUrl := u;
     uploadLog := uploadLog st; editingEntry := editingEntry st;
     requests := requests st; revoked := revoked st |}.

Definition setUploadLog (f : list UploadLogEntry -> list UploadLogEntry)
    (st : AppState) : AppState :=
  {| settings := settings st; entries := entries st;
     isLoading := isLoading st; errorMsg := errorMsg st;
     lastResult := lastResult st; lastPreviewUrl := lastPreviewUrl st;
     uploadLog := f (uploadLog st); editingEntry := editingEntry st;
     requests := requests st; revoked := revoked st |}.

Definition setEditingEntry (e : option Entry) (st : AppState) : AppState :=
  {| settings := settings st; entries := entries st;
     isLoading := isLoading st; errorMsg := errorMsg st;
     lastResult := lastResult st; lastPreviewUrl := lastPreviewUrl st;
     uploadLog := uploadLog st; editingEntry := e;
     requests := requests st; revoked := revoked st |}.

(** [fetch(url, init)]: the request leaves the browser. *)
Definition issueFetch (r : HttpRequest) (st : AppState) : AppState :=
  {| settings := settings st; entries := entries st;
     isLoading := isLoading st; errorMsg := errorMsg st;
     lastResult := lastResult st; lastPreviewUrl := lastPreviewUrl st;
     uploadLog := uploadLog st; editingEntry := editingEntry st;
     requests := r :: requests st; revoked := revoked st |}.

(** [URL.revokeObjectURL(u)]. *)
Definition revokeObjectURL (u : string) (st : AppState) : AppState :=
  {| settings := settings st; entries := entries st;
     isLoading := isLoading st; errorMsg := errorMsg st;
     lastResult := lastResult st; lastPreviewUrl := lastPreviewUrl st;
     uploadLog := uploadLog st; editingEntry := editingEntry st;
     requests := requests st; revoked := u :: revoked st |}.

(** The initial state of the component. *)
Definition initialState : AppState :=
  {| settings := {| webhookUrl := ""; theme := dark |};
     entries := []; isLoading := false; errorMsg := None;
     lastResult := None; lastPreviewUrl := None; uploadLog := [];
     editingEntry := None; requests := []; revoked := [] |}.

(** A value caught by [catch]: an [Error] with its message, or anything
    else. *)
Inductive Thrown :=
| ThrownError (msg : string)
| ThrownOther.

(** The answer of the webhook: status, [Content-Type] header if any, and
    the body, unless reading it fails. *)
Record Response := {
  resp_status : Z;
  resp_contentType : option string;
  resp_body : Thrown + string
}.

(** The outcome of [await fetch(...)]: rejected (transport failure) or a
    response. *)
Inductive FetchResult :=
| FetchRejected (t : Thrown)
| FetchResponse (r : Response).

(** [response.ok]. *)
Definition resp_ok (r : Response) : bool :=
  (200 <=? resp_status r) && (resp_status r <=? 299).

(** What one call of [processFile] keeps in its closure across the
    [await]s. *)
Record Submission := {
  sub_file : File;
  sub_logId : string;
  sub_fileType : string;
  sub_fileSizeLabel : string;
  sub_metaLabel : string;
  sub_request : HttpRequest;
  sub_lastPreviewUrl : option string
}.

(** The clock and the object URL factory, as one call of [processFile]
    sees them: [Date.now()], the three [new Date().toISOString()] it may
    evaluate, and the result of [URL.createObjectURL(file)]. *)
Record Ambient := {
  dateNow : Z;
  isoStarted : string;
  isoCaptured : string;
  isoSettled : string;
  objectUrl : string
}.

Definition noWebhookMessage : string :=
  "Kein Webhook hinterlegt. Bitte Einstellungen prüfen.".

(** [processFile] up to its first [await]: the guard, the [pending] log
    entry and the call of [fetch]. *)
Definition processFile_start (amb : Ambient) (file : File) (st : AppState)
  : AppState * option Submission :=
  if negb (JS.truthy (webhookUrl (settings st))) then
    (setError (Some noWebhookMessage) st, None)
  else
    let st1 := setError None (setIsLoading true st) in
    let logId := JS.ofZ (dateNow amb) ++ "-" ++ f_name file in
    let fileType := JS.orElse (f_type file) "application/octet-stream" in
    let fileSizeLabel := formatFileSize (f_size file) in
    let metaLabel := fileType ++ " | " ++ fileSizeLabel in
    let st2 :=
      setUploadLog
        (updateUploadLog (isoStarted amb)
           {| u_id := logId;
              u_fileName := Some (f_name file);
              u_displayName := Some (f_name file);
              u_status := Some pending;
              u_timestamp := Some (isoStarted amb);
              u_message := Some ("Upload gestartet (" ++ metaLabel ++ ")") |})
        st1 in
    let formData :=
      [ ("file", FormFile file (f_name file));
        ("fileName", FormText (f_name file));
        ("mimeType", FormText fileType);
        ("fileSize", FormText (JS.ofZ (f_size file)));
        ("fileSizeReadable", FormText fileSizeLabel) ] in
    let request :=
      {| req_url := webhookUrl (settings st);
         req_method := "POST";
         req_body := formData |} in
    (issueFetch request st2,
     Some {| sub_file := file; sub_logId := logId;
             sub_fileType := fileType;
             sub_fileSizeLabel := fileSizeLabel;
             sub_metaLabel := metaLabel;
             sub_request := request;
             sub_lastPreviewUrl := lastPreviewUrl st |}).

(** The [try] block after [fetch]: the payload, or what is thrown. *)
Definition readPayload (pf : Platform) (out : FetchResult)
  : Thrown + Payload :=
  match out with
  | FetchRejected t => inl t
  | FetchResponse r =>
      if negb (resp_ok r) then
        inl (ThrownError
               ("Webhook antwortete mit Status " ++ JS.ofZ (resp_status r)))
      else
        let contentType := JS.orElse (JS.nullish (resp_contentType r) "") "" in
        if JS.includes "application/json" contentType then
          match resp_body r with
          | inl t => inl t
          | inr text =>
              match JSON_parse pf text with
              | Some payload => inr payload
              | None => inl (ThrownError (jsonErrorMessage pf text))
              end
          end
        else
          match resp_body r with
          | inl t => inl t
          | inr text =>
              if negb (JS.truthy text) then
                inl (ThrownError "Server lieferte eine leere Antwort.")
              else
                match JSON_parse pf text with
                | Some payload => inr payload
                | None =>
                    inl (ThrownError
                           "Antwort konnte nicht als JSON gelesen werden.")
                end
          end
  end.

(** [uploadError instanceof Error ? uploadError.message : ...]. *)
Definition thrownMessage (t : Thrown) : string :=
  match t with
  | ThrownError msg => msg
  | ThrownOther => "Unbekannter Fehler"
  end.

(** [payload?.field || fallback]. *)
Definition fieldOr (x : option string) (fallback : string) : string :=
  JS.orElse (JS.nullish x "") fallback.

(** [processFile] from the answer of [fetch] on; [st] is the state at that
    time, which other handlers may have changed since the start. *)
Definition processFile_settle (pf : Platform) (amb : Ambient)
    (sub : Submission) (out : FetchResult) (st : AppState) : AppState :=
  let file := sub_file sub in
  let st' :=
    match readPayload pf out with
    | inr payload =>
        let newEntry :=
          {| vendor := fieldOr (p_vendor payload) "";
             invoiceNumber := fieldOr (p_invoiceNumber payload) "";
             invoiceDate := Some (fieldOr (p_invoiceDate payload) "");
             totalAmount := fieldOr (p_totalAmount payload) "0";
             imageName := f_name file;
             capturedAt := isoCaptured amb |} in
        let st1 := setEntries (fun prev => newEntry :: prev) st in
        let st2 := setLastResult (fun _ => Some newEntry) st1 in
        let st3 :=
          match sub_lastPreviewUrl sub with
          | Some u => if JS.truthy u then revokeObjectURL u st2 else st2
          | None => st2
          end in
        let st4 := setLastPreviewUrl (Some (objectUrl amb)) st3 in
        setUploadLog
          (updateUploadLog (isoSettled amb)
             {| u_id := sub_logId sub;
                u_fileName := Some (f_name file);
                u_displayName := None;
                u_status := Some success;
                u_timestamp := Some (isoSettled amb);
                u_message :=
                  Some ("Scan erfolgreich verarbeitet ("
                        ++ sub_metaLabel sub ++ ")") |})
          st4
    | inl uploadError =>
        let errorMessage := thrownMessage uploadError in
        let st1 := setError (Some errorMessage) st in
        setUploadLog
          (updateUploadLog (isoSettled amb)
             {| u_id := sub_logId sub;
                u_fileName := Some (f_name file);
                u_displayName := None;
                u_status := Some error;
                u_timestamp := Some (isoSettled amb);
                u_message :=
                  Some (sub_metaLabel sub ++ " | " ++ errorMessage) |})
          st1
    end in
  setIsLoading false st'.

(** One call of [processFile] with nothing in between; [net] is the
    webhook. *)
Definition processFile (pf : Platform) (amb : Ambient)
    (net : HttpRequest -> FetchResult) (file : File) (st : AppState)
  : AppState :=
  match processFile_start amb file st with
  | (st1, None) => st1
  | (st1, Some sub) =>
      processFile_settle pf amb sub (net (sub_request sub)) st1
  end.

(** ** Editing a stored entry *)

(** The draft of [EditableEntryRow] and of [EditEntrySheet]. *)
Record Draft := {
  d_vendor : string;
  d_invoiceNumber : string;
  d_invoiceDate : string;
  d_totalAmount : string
}.

Definition dateErrorMessage : string :=
  "Bitte Datum als TT.MM.JJJJ eintragen".

(** [handleSave] of both forms: the date error it sets, or the entry it
    hands to [onSave]. *)
Definition handleSave (pf : Platform) (entry : Entry) (draft : Draft)
  : string + Entry :=
  let parsedDate :=
    if JS.truthy (d_invoiceDate draft)
    then parseGermanDate pf (Some (d_invoiceDate draft))
    else None in
  if JS.truthy (d_invoiceDate draft) && missing parsedDate then
    inl dateErrorMessage
  else
    inr {| vendor := d_vendor draft;
           invoiceNumber := d_invoiceNumber draft;
           invoiceDate := parsedDate;
           totalAmount := d_totalAmount draft;
           imageName := imageName entry;
           capturedAt := capturedAt entry |}.

(** [{ ...entry, ...updatedEntry }]: every property of [Entry] is set in
    [updatedEntry]. *)
Definition spreadEntry (entry updatedEntry : Entry) : Entry :=
  {| vendor := vendor updatedEntry;
     invoiceNumber := invoiceNumber updatedEntry;
     invoiceDate := invoiceDate updatedEntry;
     totalAmount := totalAmount updatedEntry;
     imageName := imageName updatedEntry;
     capturedAt := capturedAt updatedEntry |}.

Definition handleUpdateEntry (updatedEntry : Entry) (st : AppState)
  : AppState :=
  let st1 :=
    setEntries
      (fun prev =>
         map (fun entry =>
                if String.eqb (capturedAt entry) (capturedAt updatedEntry)
                then spreadEntry entry updatedEntry else entry) prev) st in
  let st2 :=
    setLastResult
      (fun prev =>
         match prev with
         | Some p =>
             if String.eqb (capturedAt p) (capturedAt updatedEntry)
             then Some (spreadEntry p updatedEntry) else prev
         | None => prev
         end) st1 in
  setEditingEntry None st2.

(** Pressing save in a form opened on [entry]: a blocked save changes the
    form only. *)
Definition saveEdit (pf : Platform) (entry : Entry) (draft : Draft)
    (st : AppState) : AppState :=
  match handleSave pf entry draft with
  | inl _ => st
  | inr updatedEntry => handleUpdateEntry updatedEntry st
  end.


(** ** The other handlers of the root component *)

Definition setSettings (f : Settings -> Settings) (st : AppState) : AppState :=
  {| settings := f (settings st); entries := entries st;
     isLoading := isLoading st; errorMsg := errorMsg st;
     lastResult := lastResult st; lastPreviewUrl := lastPreviewUrl st;
     uploadLog := uploadLog st; editingEntry := editingEntry st;
     requests := requests st; revoked := revoked st |}.

(** [{ ...prev, ...nextSettings }]: [nextSettings] sets both properties. *)
Definition handleSettingsChange (nextSettings : Settings) (st : AppState)
  : AppState :=
  setSettings
    (fun prev => {| webhookUrl := webhookUrl nextSettings;
                    theme := theme nextSettings |}) st.

Definition handleDeleteEntry (i : string) (st : AppState) : AppState :=
  let st1 :=
    setEntries
      (fun prev =>
         filter (fun entry => negb (String.eqb (capturedAt entry) i)) prev)
      st in
  setLastResult
    (fun prev =>
       match prev with
       | Some p => if String.eqb (capturedAt p) i then None else prev
       | None => prev
       end) st1.

(** [handleDeleteAll]; [confirm] is [window.confirm]. *)
Definition handleDeleteAll (confirm : string -> bool) (st : AppState)
  : AppState :=
  if (List.length (entries st) =? 0)%nat then st
  else
    let confirmDelete :=
      confirm ("Möchtest du wirklich alle "
               ++ JS.ofZ (Z.of_nat (List.length (entries st)))
               ++ " Einträge entfernen?") in
    if negb confirmDelete then st
    else
      let st1 := setEntries (fun _ => []) st in
      let st2 := setLastResult (fun _ => None) st1 in
      match lastPreviewUrl st with
      | Some u =>
          if JS.truthy u
          then setLastPreviewUrl None (revokeObjectURL u st2)
          else st2
      | None => st2
      end.

Definition handleStartEdit (entry : Entry) (st : AppState) : AppState :=
  setEditingEntry (Some entry) st.

Definition handleCloseEdit (st : AppState) : AppState :=
  setEditingEntry None st.

Definition handleFileSelected (pf : Platform) (amb : Ambient)
    (net : HttpRequest -> FetchResult) (file : File) (st : AppState)
  : AppState :=
  processFile pf amb net file st.

(** A [Blob], as far as the source reads it. *)
Record Blob := { b_type : string; b_size : Z }.

(** [handleCameraCapture]; [now] is its own [Date.now()]. *)
Definition handleCameraCapture (pf : Platform) (amb : Ambient)
    (net : HttpRequest -> FetchResult) (now : Z) (blob : Blob)
    (st : AppState) : AppState :=
  let fileName := "scan_" ++ JS.ofZ now ++ ".jpg" in
  let file :=
    {| f_name := fileName;
       f_type := JS.orElse (b_type blob) "image/jpeg";
       f_size := b_size blob |} in
  processFile pf amb net file st.

(** [Boolean(settings.webhookUrl)], which enables the upload buttons. *)
Definition webhookConfigured (st : AppState) : bool :=
  JS.truthy (webhookUrl (settings st)).

(** The memo [csvBlobUrl]: the text of the export, if there is one. *)
Definition csvExport (st : AppState) : option string :=
  if (List.length (entries st) =? 0)%nat then None
  else Some (entriesToCSV (entries st)).

(** ** The settings form *)

Record SettingsForm := {
  webhookInput : string;
  selectedTheme : ThemeId;
  feedback : option string;
  formError : option string
}.

(** [handleSubmit] of [SettingsView]: the form afterwards and the
    application state after [onSettingsChange], if it is called. *)
Definition settingsSubmit (pf : Platform) (form : SettingsForm)
    (st : AppState) : SettingsForm * AppState :=
  let trimmed := JS.trim (webhookInput form) in
  if negb (validateWebhookUrl pf trimmed) then
    ({| webhookInput := webhookInput form;
        selectedTheme := selectedTheme form;
        feedback := None;
        formError := Some "Bitte gueltige URL eingeben (https://...)." |},
     st)
  else
    let nextSettings :=
      {| webhookUrl := trimmed; theme := selectedTheme form |} in
    ({| webhookInput := webhookInput form;
        selectedTheme := selectedTheme form;
        feedback :=
          Some "Einstellungen gespeichert. Webhook wird nur lokal hinterlegt.";
        formError := None |},
     handleSettingsChange nextSettings st).

(** ** The drafts of the edit forms *)

(** The draft with which [EditableEntryRow] and [EditEntrySheet] open on
    an entry, and to which [handleCancel] resets. *)
Definition draftOf (entry : Entry) : Draft :=
  {| d_vendor := JS.orElse (vendor entry) "";
     d_invoiceNumber := JS.orElse (invoiceNumber entry) "";
     d_invoiceDate := formatDate (invoiceDate entry);
     d_totalAmount := JS.orElse (totalAmount entry) "" |}.

(** [handleChange]: the input named [name] takes [value].  (The forms
    have these four inputs; the date error, which the handler also clears
    for the date input, is shown by the form and is no part of the
    draft.) *)
Definition handleChange (name value : string) (draft : Draft) : Draft :=
  if String.eqb name "vendor" then
    {| d_vendor := value; d_invoiceNumber := d_invoiceNumber draft;
       d_invoiceDate := d_invoiceDate draft;
       d_totalAmount := d_totalAmount draft |}
  else if String.eqb name "invoiceNumber" then
    {| d_vendor := d_vendor draft; d_invoiceNumber := value;
       d_invoiceDate := d_invoiceDate draft;
       d_totalAmount := d_totalAmount draft |}
  else if String.eqb name "invoiceDate" then
    {| d_vendor := d_vendor draft;
       d_invoiceNumber := d_invoiceNumber draft;
       d_invoiceDate := value;
       d_totalAmount := d_totalAmount draft |}
  else if String.eqb name "totalAmount" then
    {| d_vendor := d_vendor draft;
       d_invoiceNumber := d_invoiceNumber draft;
       d_invoiceDate := d_invoiceDate draft;
       d_totalAmount := value |}
  else draft.

(** ** The handlers as steps of the application

    What the user and the network can make the root component do, one
    handler at a time, from the initial state (the default settings, no
    settings restored from storage).  A submission is two steps,
    its start and its settling, so that other handlers may run in between;
    [Settle] is allowed for any submission record, which covers every
    order in which answers arrive. *)

Inductive AppOp :=
| SubmitSettings (form : SettingsForm)
| Start (amb : Ambient) (file : File)
| Settle (amb : Ambient) (sub : Submission) (out : FetchResult)
| SaveEdit (entry : Entry) (draft : Draft)
| DeleteEntry (i : string)
| DeleteAll (confirm : string -> bool)
| StartEdit (entry : Entry)
| CloseEdit
| RenameLog (prompt : string -> option string) (i : string)
| RemoveLog (i : string)
| DismissError
| CameraError (message : string).

Definition appStep (pf : Platform) (st : AppState) (op : AppOp) : AppState :=
  match op with
  | SubmitSettings form => snd (settingsSubmit pf form st)
  | Start amb file => fst (processFile_start amb file st)
  | Settle amb sub out => processFile_settle pf amb sub out st
  | SaveEdit entry draft => saveEdit pf entry draft st
  | DeleteEntry i => handleDeleteEntry i st
  | DeleteAll confirm => handleDeleteAll confirm st
  | StartEdit entry => handleStartEdit entry st
  | CloseEdit => handleCloseEdit st
  | RenameLog prompt i => setUploadLog (handleRenameUploadLog prompt i) st
  | RemoveLog i => setUploadLog (handleRemoveUploadLog i) st
  | DismissError => setError None st
  | CameraError message => setError (Some message) st
  end.

Definition runApp (pf : Platform) (ops : list AppOp) : AppState :=
  fold_left (appStep pf) ops initialState.

(** ** Vocabulary of the statements *)

(** Whether character [c] occurs in [s]. *)
Fixpoint occurs (c : ascii) (s : string) : bool :=
  match s with
  | EmptyString => false
  | String c' r => Ascii.eqb c' c || occurs c r
  end.

(** A run of [n] decimal digits. *)
Definition digitRun (n : nat) (s : string) : Prop :=
  String.length s = n /\ JS.allDigits s = true.

(** The string starts with four digits, a hyphen, two digits, a hyphen
    and two digits. *)
Definition hasIsoPrefix (s : string) : Prop :=
  exists y m d rest,
    digitRun 4 y /\ digitRun 2 m /\ digitRun 2 d /\
    s = y ++ "-" ++ m ++ "-" ++ d ++ rest.

(** Year [y], month [m] and day [d] name a day of the proleptic Gregorian
    calendar. *)
Definition validDate (y m d : Z) : Prop :=
  1 <= m <= 12 /\ 1 <= d <= EcmaDate.daysInMonth y m.

(** The string is a calendar date written [YYYY-MM-DD]. *)
Definition isIsoDate (s : string) : Prop :=
  exists y m d,
    digitRun 4 y /\ digitRun 2 m /\ digitRun 2 d /\
    s = y ++ "-" ++ m ++ "-" ++ d /\
    validDate (JS.parseInt y) (JS.parseInt m) (JS.parseInt d).

(** The local time zone is never west of Greenwich, and less than a day
    east of it. *)
Definition eastOfGreenwich (pf : Platform) : Prop :=
  forall t, 0 <= LocalTZA pf t < EcmaDate.msPerDay.

(** The local time zone is always west of Greenwich, by at most a day. *)
Definition westOfGreenwich (pf : Platform) : Prop :=
  forall t, - EcmaDate.msPerDay <= LocalTZA pf t < 0.

(** [s] is [day.month.year] with digits only: one or two for the day and
    for the month, two to four for the year. *)
Definition germanShape (s day month year : string) : Prop :=
  s = day ++ "." ++ month ++ "." ++ year /\
  JS.allDigits day = true /\ JS.allDigits month = true /\
  JS.allDigits year = true /\
  (1 <= String.length day <= 2)%nat /\
  (1 <= String.length month <= 2)%nat /\
  (2 <= String.length year <= 4)%nat.

(** A two-digit year with 20 in front; any other year as it is. *)
Definition expandYear (year : string) : string :=
  if (String.length year =? 2)%nat then "20" ++ year else year.

(** The date [day.month.year] in ISO form. *)
Definition isoOf (day month year : string) : string :=
  expandYear year ++ "-" ++ JS.padStart 2 "0" month ++ "-"
  ++ JS.padStart 2 "0" day.

(** The numbers that [day.month.year] denotes name a day of the calendar. *)
Definition denotesDate (day month year : string) : Prop :=
  validDate (JS.parseInt (expandYear year)) (JS.parseInt month)
    (JS.parseInt day).

(** The CSV text in the words of the specification. *)

(** Every double quote twice. *)
Fixpoint doubled (s : string) : string :=
  match s with
  | EmptyString => EmptyString
  | String c r =>
      if Ascii.eqb c dquote then String dquote (String dquote (doubled r))
      else String c (doubled r)
  end.

(** One double quote, as a string. *)
Definition dq : string := String dquote EmptyString.

(** A cell: its text between double quotes, inner quotes doubled. *)
Definition quotedCell (s : string) : string := dq ++ doubled s ++ dq.

Definition headerLine : string :=
  quotedCell "Lieferant" ++ ";" ++ quotedCell "Rechnungsnummer" ++ ";"
  ++ quotedCell "Datum" ++ ";" ++ quotedCell "Betrag".

(** Every point a comma. *)
Fixpoint pointsToCommas (s : string) : string :=
  match s with
  | EmptyString => EmptyString
  | String c r =>
      String (if Ascii.eqb c "." then ","%char else c) (pointsToCommas r)
  end.

Fixpoint countChar (c : ascii) (s : string) : nat :=
  match s with
  | EmptyString => O
  | String c' r => ((if Ascii.eqb c' c then 1 else 0) + countChar c r)%nat
  end.

(** The row of an entry: vendor, invoice number, formatted date and the
    amount with its first point turned into a comma. *)
Definition entryLine (e : Entry) : string :=
  quotedCell (vendor e) ++ ";" ++ quotedCell (invoiceNumber e) ++ ";"
  ++ quotedCell (formatDate (invoiceDate e)) ++ ";"
  ++ quotedCell (JS.replaceFirst "." "," (totalAmount e)).

(** One line per entry, each after a line feed, in the order of the
    entries. *)
Fixpoint entryLines (es : list Entry) : string :=
  match es with
  | [] => EmptyString
  | e :: r => newline ++ entryLine e ++ entryLines r
  end.

(** The upload log in the words of the specification. *)

Definition ids (log : list UploadLogEntry) : list string := map id log.

Definition notId (i j : string) : bool := negb (String.eqb j i).

(** A field of the merged entry: what the update sets, else what the
    replaced entry had, else the default. *)
Definition pick {A : Type} (new old : option A) (default : A) : A :=
  match new, old with
  | Some x, _ => x
  | None, Some y => y
  | None, None => default
  end.

Definition mergedEntry (now : string) (u : LogUpdate)
    (existing : option UploadLogEntry) : UploadLogEntry :=
  let name := pick (u_fileName u) (option_map fileName existing) "" in
  {| id := u_id u;
     fileName := name;
     displayName :=
       pick (u_displayName u) (option_map displayName existing) name;
     status := pick (u_status u) (option_map status existing) pending;
     timestamp := pick (u_timestamp u) (option_map timestamp existing) now;
     message :=
       match u_message u, existing with
       | Some m, _ => Some m
       | None, Some e => message e
       | None, None => None
       end |}.

(** At most five entries, no id twice. *)
Definition logInvariant (log : list UploadLogEntry) : Prop :=
  (List.length log <= 5)%nat /\ NoDup (ids log).

(** A run of upserts, each with the time at which it happens. *)
Definition upserts (l : list (string * LogUpdate)) : list LogOp :=
  map (fun p => Upsert (fst p) (snd p)) l.

Definition upsertIds (l : list (string * LogUpdate)) : list string :=
  map (fun p => u_id (snd p)) l.

(** The ids in the order of their most recent upsert, most recent first. *)
Definition recency (l : list string) : list string :=
  fold_left (fun acc i => i :: filter (notId i) acc) l [].

(** The two updates of the specification's example. *)
Definition namesFile (i name : string) : LogUpdate :=
  {| u_id := i; u_fileName := Some name; u_displayName := None;
     u_status := None; u_timestamp := None; u_message := None |}.


(** The keys of the record store. *)
Definition keys (es : list Entry) : list string := map capturedAt es.

(** The string does not start with a double quote. *)
Definition noLeadingQuote (s : string) : Prop :=
  match s with
  | EmptyString => True
  | String c _ => c <> dquote
  end.

(** The platform [pf] with its day check set to [b]. *)
Definition withLenientDay (b : bool) (pf : Platform) : Platform :=
  {| LocalTZA := LocalTZA pf;
     lenientDay := b;
     otherDateParse := otherDateParse pf;
     urlRestOk := urlRestOk pf;
     JSON_parse := JSON_parse pf;
     jsonErrorMessage := jsonErrorMessage pf |}.

(** The entry that a successful submission stores. *)
Definition entryOfPayload (payload : Payload) (name captured : string)
  : Entry :=
  {| vendor := fieldOr (p_vendor payload) "";
     invoiceNumber := fieldOr (p_invoiceNumber payload) "";
     invoiceDate := Some (fieldOr (p_invoiceDate payload) "");
     totalAmount := fieldOr (p_totalAmount payload) "0";
     imageName := name;
     capturedAt := captured |}.

(** The webhook is unset or a URL that the settings form accepts, every
    request so far was a POST to such a URL, and the log is within its
    bounds. *)
Definition appInvariant (pf : Platform) (st : AppState) : Prop :=
  logInvariant (uploadLog st)
  /\ (webhookUrl (settings st) = ""
      \/ validateWebhookUrl pf (webhookUrl (settings st)) = true)
  /\ Forall (fun r => validateWebhookUrl pf (req_url r) = true
                      /\ req_method r = "POST") (requests st).

(** The [Date] parser answers an invalid date for a date and time
    written with a three-digit year, [YYY-MM-DDT00:00:00Z]. *)
Definition refusesShortYears (pf : Platform) : Prop :=
  forall y m d,
    digitRun 3 y -> digitRun 2 m -> digitRun 2 d ->
    otherDateParse pf (y ++ "-" ++ m ++ "-" ++ d ++ "T00:00:00Z") = None.

(* ================================================================== *)
(** * Part II: properties *)
(* ================================================================== *)

(** Closed goals are settled by evaluation. *)
Ltac evaluate :=
  vm_compute;
  first [ reflexivity
        | let H := fresh in intro H; discriminate H
        | lia ].

(** ** Strings *)

Lemma digit_not_sep (c sep : ascii) :
  JS.isDigit c = true -> JS.isDigit sep = false -> Ascii.eqb c sep = false.
Proof.
  intros Hc Hs. destruct (Ascii.eqb_spec c sep) as [->|]; [|reflexivity].
  rewrite Hc in Hs. discriminate.
Qed.

Lemma allDigits_occurs (sep : ascii) (s : string) :
  JS.isDigit sep = false -> JS.allDigits s = true -> occurs sep s = false.
Proof.
  intros Hs. induction s as [|c r IH]; simpl; auto.
  intros H. apply andb_true_iff in H as [Hc Hr].
  rewrite (digit_not_sep c sep Hc Hs), IH; auto.
Qed.

Lemma allDigits_app (a b : string) :
  JS.allDigits (a ++ b) = JS.allDigits a && JS.allDigits b.
Proof.
  induction a as [|c r IH]; simpl; auto.
  rewrite IH, andb_assoc. reflexivity.
Qed.

Lemma split_not_nil (sep : ascii) (s : string) : JS.split sep s <> [].
Proof.
  destruct s as [|c r]; simpl; [discriminate|].
  destruct (Ascii.eqb c sep); [discriminate|].
  destruct (JS.split sep r); discriminate.
Qed.

Lemma split_hd_tl (sep : ascii) (s : string) :
  JS.split sep s = hd "" (JS.split sep s) :: tl (JS.split sep s).
Proof.
  pose proof (split_not_nil sep s). destruct (JS.split sep s); [congruence | reflexivity].
Qed.

Lemma split_app (sep : ascii) (p s : string) :
  occurs sep p = false ->
  JS.split sep (p ++ s)
  = (p ++ hd "" (JS.split sep s)) :: tl (JS.split sep s).
Proof.
  induction p as [|c r IH]; simpl; intros H.
  - apply split_hd_tl.
  - apply orb_false_iff in H as [Hc Hr].
    rewrite Hc, (IH Hr). reflexivity.
Qed.

Lemma split_none (sep : ascii) (p : string) :
  occurs sep p = false -> JS.split sep p = [p].
Proof.
  induction p as [|c r IH]; simpl; intros H; auto.
  apply orb_false_iff in H as [Hc Hr]. rewrite Hc, (IH Hr). reflexivity.
Qed.

Lemma occurs_app (c : ascii) (a b : string) :
  occurs c (a ++ b) = occurs c a || occurs c b.
Proof.
  induction a as [|x r IH]; simpl; auto.
  rewrite IH, orb_assoc. reflexivity.
Qed.

Lemma app_assoc_s (a b c : string) : (a ++ b) ++ c = a ++ b ++ c.
Proof. induction a as [|x r IH]; simpl; congruence. Qed.

Lemma app_nil_r_s (a : string) : a ++ "" = a.
Proof. induction a as [|x r IH]; simpl; congruence. Qed.

Lemma length_app_s (a b : string) :
  String.length (a ++ b) = (String.length a + String.length b)%nat.
Proof. induction a as [|x r IH]; simpl; congruence. Qed.

Lemma truthy_length (s : string) :
  JS.truthy s = true <-> (0 < String.length s)%nat.
Proof.
  destruct s; simpl; split; intros; try lia; try discriminate; reflexivity.
Qed.

Lemma takeDigits_app (n : nat) (d rest : string) :
  digitRun n d -> JS.takeDigits n (d ++ rest) = Some (d, rest).
Proof.
  intros [Hl Hd]. revert n Hl Hd.
  induction d as [|c r IH]; intros n Hl Hd; simpl in *; subst n; auto.
  apply andb_true_iff in Hd as [Hc Hr].
  simpl. rewrite Hc, (IH _ eq_refl Hr). reflexivity.
Qed.

Lemma takeDigits_inv (n : nat) (s d rest : string) :
  JS.takeDigits n s = Some (d, rest) -> digitRun n d /\ s = d ++ rest.
Proof.
  revert s d rest. induction n as [|n IH]; intros s d rest; simpl.
  - intros [= <- <-]. repeat split.
  - destruct s as [|c r]; [discriminate|].
    destruct (JS.isDigit c) eqn:Hc; [|discriminate].
    destruct (JS.takeDigits n r) as [[d' rest']|] eqn:E; [|discriminate].
    intros [= <- <-]. destruct (IH _ _ _ E) as [[Hl Hd] ->].
    unfold digitRun. simpl. rewrite Hc, Hd, Hl. repeat split.
Qed.

Lemma takeChar_inv (c : ascii) (s r : string) :
  JS.takeChar c s = Some r -> s = String c r.
Proof.
  destruct s as [|c' r']; simpl; [discriminate|].
  destruct (Ascii.eqb_spec c' c) as [->|]; [|discriminate].
  intros [= ->]. reflexivity.
Qed.

Lemma takeChar_cons (c : ascii) (r : string) :
  JS.takeChar c (String c r) = Some r.
Proof. simpl. rewrite Ascii.eqb_refl. reflexivity. Qed.

Lemma takeChar_lit (c : ascii) (r : string) :
  JS.takeChar c (String c EmptyString ++ r) = Some r.
Proof. apply takeChar_cons. Qed.

(** ** [formatDate] *)

Lemma isoDatePrefix_spec (s : string) :
  isoDatePrefix s = true <-> hasIsoPrefix s.
Proof.
  unfold isoDatePrefix, hasIsoPrefix. split.
  - destruct (JS.takeDigits 4 s) as [[y s1]|] eqn:E1; [|discriminate].
    destruct (JS.takeChar "-" s1) as [s2|] eqn:E2; [|discriminate].
    destruct (JS.takeDigits 2 s2) as [[m s3]|] eqn:E3; [|discriminate].
    destruct (JS.takeChar "-" s3) as [s4|] eqn:E4; [|discriminate].
    destruct (JS.takeDigits 2 s4) as [[d s5]|] eqn:E5; [|discriminate].
    intros _.
    apply takeDigits_inv in E1 as [H1 ->], E3 as [H3 ->], E5 as [H5 ->].
    apply takeChar_inv in E2 as ->, E4 as ->.
    exists y, m, d, s5. auto.
  - intros (y & m & d & rest & Hy & Hm & Hd & ->).
    rewrite (takeDigits_app 4 y _ Hy), takeChar_lit.
    rewrite (takeDigits_app 2 m _ Hm), takeChar_lit.
    rewrite (takeDigits_app 2 d _ Hd). reflexivity.
Qed.

Lemma digitRun_truthy (n : nat) (s : string) :
  digitRun (S n) s -> JS.truthy s = true.
Proof. intros [Hl _]. apply truthy_length. lia. Qed.

(** The components that [formatDate] reads from a string with an ISO date
    prefix. *)
Lemma formatDate_parts (y m d rest : string) :
  digitRun 4 y -> digitRun 2 m -> digitRun 2 d ->
  let s := y ++ "-" ++ m ++ "-" ++ d ++ rest in
  let third := d ++ hd "" (JS.split "-" (hd "" (JS.split "T" rest))) in
  JS.split "-" (hd "" (JS.split "T" s))
  = y :: m :: third :: tl (JS.split "-" (hd "" (JS.split "T" rest)))
  /\ formatDate (Some s) = third ++ "." ++ m ++ "." ++ y.
Proof.
  intros Hy Hm Hd s third.
  assert (HT : hd "" (JS.split "T" s)
               = y ++ "-" ++ m ++ "-" ++ d ++ hd "" (JS.split "T" rest)).
  { unfold s.
    rewrite (split_app "T" y) by (apply allDigits_occurs; [reflexivity|apply Hy]).
    simpl hd. f_equal.
    change ("-" ++ m ++ "-" ++ d ++ rest)
      with (String "-" (m ++ String "-" (d ++ rest))).
    cbn [JS.split]. change (Ascii.eqb "-" "T") with false. cbv iota.
    rewrite (split_app "T" m) by (apply allDigits_occurs; [reflexivity|apply Hm]).
    cbn [JS.split hd tl]. change (Ascii.eqb "-" "T") with false. cbv iota.
    rewrite (split_app "T" d) by (apply allDigits_occurs; [reflexivity|apply Hd]).
    reflexivity. }
  assert (HS : JS.split "-" (hd "" (JS.split "T" s))
               = y :: m :: third
                   :: tl (JS.split "-" (hd "" (JS.split "T" rest)))).
  { rewrite HT.
    rewrite (split_app "-" y) by (apply allDigits_occurs; [reflexivity|apply Hy]).
    change ("-" ++ m ++ "-" ++ d ++ hd "" (JS.split "T" rest))
      with (String "-" (m ++ String "-" (d ++ hd "" (JS.split "T" rest)))).
    cbn [JS.split hd tl]. change (Ascii.eqb "-" "-") with true. cbv iota.
    rewrite app_nil_r_s.
    rewrite (split_app "-" m) by (apply allDigits_occurs; [reflexivity|apply Hm]).
    cbn [JS.split hd tl]. change (Ascii.eqb "-" "-") with true. cbv iota.
    rewrite app_nil_r_s.
    rewrite (split_app "-" d) by (apply allDigits_occurs; [reflexivity|apply Hd]).
    reflexivity. }
  split; [exact HS|].
  unfold formatDate.
  assert (Hs : JS.truthy s = true).
  { apply truthy_length. unfold s. rewrite length_app_s.
    destruct Hy as [-> _]. lia. }
  assert (Hp : isoDatePrefix s = true).
  { apply isoDatePrefix_spec. exists y, m, d, rest. auto. }
  rewrite Hs, Hp. cbn [negb orb].
  rewrite (split_hd_tl "T" s). cbn [nth_error]. rewrite HS. cbn [nth_error].
  unfold missing.
  rewrite (digitRun_truthy _ _ Hy), (digitRun_truthy _ _ Hm).
  assert (Ht : JS.truthy third = true).
  { apply truthy_length. unfold third. rewrite length_app_s.
    destruct Hd as [-> _]. lia. }
  rewrite Ht. reflexivity.
Qed.



(** ** Calendar arithmetic *)

Module Calendar.
Import EcmaDate.

Lemma DayFromYear_succ (y : Z) :
  DayFromYear (y + 1) = DayFromYear y + DaysInYear y.
Proof.
  unfold DayFromYear, DaysInYear, isLeap.
  destruct (y mod 4 =? 0) eqn:E4; destruct (y mod 100 =? 0) eqn:E100;
    destruct (y mod 400 =? 0) eqn:E400; cbn [andb orb negb];
    rewrite ?Z.eqb_eq, ?Z.eqb_neq in *;
    Z.div_mod_to_equations; lia.
Qed.

Lemma DaysInYear_range (y : Z) : 365 <= DaysInYear y <= 366.
Proof. unfold DaysInYear. destruct (isLeap y); lia. Qed.

Lemma DayFromYear_mono (y1 y2 : Z) :
  y1 <= y2 -> DayFromYear y1 <= DayFromYear y2.
Proof.
  intros H. unfold DayFromYear. Z.div_mod_to_equations. lia.
Qed.

Lemma DayFromYear_lt (y1 y2 : Z) :
  y1 < y2 -> DayFromYear y1 < DayFromYear y2.
Proof.
  intros H. pose proof (DayFromYear_mono (y1 + 1) y2 ltac:(lia)).
  pose proof (DayFromYear_succ y1). pose proof (DaysInYear_range y1). lia.
Qed.

(** The start of a year is within a day and a half of the mean. *)
Lemma DayFromYear_mean (y : Z) :
  146097 * (y - 1970) - 506 <= 400 * DayFromYear y
  <= 146097 * (y - 1970) + 589.
Proof. unfold DayFromYear. Z.div_mod_to_equations. lia. Qed.

(** [YearFromDay d] is the year that contains day [d]. *)
Lemma YearFromDay_unique (y d : Z) :
  DayFromYear y <= d < DayFromYear (y + 1) -> YearFromDay d = y.
Proof.
  intros [Hlo Hhi]. unfold YearFromDay.
  set (e := 1970 + 400 * d / 146097).
  assert (He : y - 1 <= e <= y + 1).
  { pose proof (DayFromYear_mean y). pose proof (DayFromYear_mean (y + 1)).
    unfold e. Z.div_mod_to_equations. lia. }
  destruct (Z.leb_spec (DayFromYear (e + 1)) d) as [H1|H1].
  - destruct (Z.lt_ge_cases y (e + 1)) as [Hy|Hy]; [|lia].
    pose proof (DayFromYear_mono (y + 1) (e + 1) ltac:(lia)). lia.
  - destruct (Z.leb_spec (DayFromYear e) d) as [H2|H2].
    + destruct (Z.lt_ge_cases y e) as [Hy|Hy].
      * pose proof (DayFromYear_mono (y + 1) e ltac:(lia)). lia.
      * destruct (Z.eq_dec y e) as [|Hne]; [lia|].
        pose proof (DayFromYear_mono (e + 1) y ltac:(lia)). lia.
    + destruct (Z.lt_ge_cases (e - 1) y) as [Hy|Hy]; [|lia].
      pose proof (DayFromYear_mono e y ltac:(lia)). lia.
Qed.

Lemma YearFromDay_spec (d : Z) :
  DayFromYear (YearFromDay d) <= d < DayFromYear (YearFromDay d + 1).
Proof.
  (* the year that contains [d] is one of the three candidates *)
  set (e := 1970 + 400 * d / 146097).
  assert (Hlo : DayFromYear (e - 1) <= d).
  { pose proof (DayFromYear_mean (e - 1)).
    unfold e in *. Z.div_mod_to_equations. lia. }
  assert (Hhi : d < DayFromYear (e + 2)).
  { pose proof (DayFromYear_mean (e + 2)).
    unfold e in *. Z.div_mod_to_equations. lia. }
  unfold YearFromDay. fold e.
  destruct (Z.leb_spec (DayFromYear (e + 1)) d) as [H1|H1].
  - replace (e + 1 + 1) with (e + 2) by lia. lia.
  - destruct (Z.leb_spec (DayFromYear e) d) as [H2|H2].
    + lia.
    + replace (e - 1 + 1) with e by lia. lia.
Qed.

End Calendar.

Module Getters.
Import EcmaDate.

Ltac split_ltb :=
  repeat match goal with
         | |- context [?a <? ?b] => destruct (Z.ltb_spec a b); try lia
         end.

Ltac month_cases M H :=
  assert (M = 1 \/ M = 2 \/ M = 3 \/ M = 4 \/ M = 5 \/ M = 6 \/ M = 7
          \/ M = 8 \/ M = 9 \/ M = 10 \/ M = 11 \/ M = 12) as H by lia;
  repeat destruct H as [H|H]; subst M.

Lemma DayWithinYear_range (t : Z) :
  0 <= DayWithinYear t < DaysInYear (YearFromTime t).
Proof.
  unfold DayWithinYear, YearFromTime.
  pose proof (Calendar.YearFromDay_spec (Day t)).
  pose proof (Calendar.DayFromYear_succ (YearFromDay (Day t))). lia.
Qed.

(** Whatever the time value, the getters read a day of the calendar. *)
Lemma getters_valid (t : Z) :
  validDate (YearFromTime t) (MonthFromTime t + 1) (DateFromTime t).
Proof.
  pose proof (DayWithinYear_range t) as Hw.
  unfold validDate, DateFromTime, MonthFromTime, InLeapYear, DaysInYear,
    daysInMonth in *.
  destruct (isLeap (YearFromTime t)); split_ltb; cbn; lia.
Qed.

(** The getters determine the day. *)
Lemma getters_inverse (t : Z) :
  MakeDay (YearFromTime t) (MonthFromTime t) (DateFromTime t) = Day t.
Proof.
  pose proof (DayWithinYear_range t) as Hw.
  assert (Hm : 0 <= MonthFromTime t <= 11).
  { unfold MonthFromTime. split_ltb. }
  unfold MakeDay, DateFromTime.
  rewrite (Z.div_small (MonthFromTime t) 12) by lia.
  rewrite (Z.mod_small (MonthFromTime t) 12) by lia.
  rewrite Z.add_0_r. fold (InLeapYear t). unfold DayWithinYear. lia.
Qed.

(** On a day of the calendar the getters read back its year, month and
    day of month. *)
Lemma getters_of_date (Y M D t : Z) :
  validDate Y M D -> Day t = MakeDay Y (M - 1) D ->
  YearFromTime t = Y /\ MonthFromTime t = M - 1 /\ DateFromTime t = D.
Proof.
  intros [HM HD] Ht.
  assert (Hn : Day t
               = DayFromYear Y
                 + daysBeforeMonth (if isLeap Y then 1 else 0) (M - 1)
                 + D - 1).
  { rewrite Ht. unfold MakeDay.
    rewrite (Z.div_small (M - 1) 12), (Z.mod_small (M - 1) 12) by lia.
    rewrite Z.add_0_r. reflexivity. }
  assert (HY : YearFromTime t = Y).
  { unfold YearFromTime. apply Calendar.YearFromDay_unique.
    rewrite Calendar.DayFromYear_succ, Hn. unfold DaysInYear.
    unfold daysInMonth in HD.
    month_cases M HM'; destruct (isLeap Y); cbn in *; lia. }
  split; [exact HY|].
  unfold DateFromTime, MonthFromTime, InLeapYear, DayWithinYear.
  rewrite HY, Hn. unfold daysInMonth in HD.
  month_cases M HM'; destruct (isLeap Y); cbn in *;
    split_ltb; cbn; lia.
Qed.

End Getters.

(** ** [parseGermanDate] *)

Lemma spanDigits_inv (s d r : string) :
  JS.spanDigits s = (d, r) ->
  s = d ++ r /\ JS.allDigits d = true /\
  match r with
  | EmptyString => True
  | String c _ => JS.isDigit c = false
  end.
Proof.
  revert d r. induction s as [|c s IH]; intros d r; simpl.
  - intros [= <- <-]. auto.
  - destruct (JS.isDigit c) eqn:Hc.
    + destruct (JS.spanDigits s) as [d' r'] eqn:E. intros [= <- <-].
      destruct (IH _ _ eq_refl) as (-> & Hd & Hr).
      simpl. rewrite Hc, Hd. auto.
    + intros [= <- <-]. simpl. rewrite Hc. auto.
Qed.

Lemma spanDigits_app (d r : string) :
  JS.allDigits d = true ->
  match r with
  | EmptyString => True
  | String c _ => JS.isDigit c = false
  end ->
  JS.spanDigits (d ++ r) = (d, r).
Proof.
  intros Hd Hr. induction d as [|c d IH]; simpl in *.
  - destruct r as [|c r]; simpl; [reflexivity|]. rewrite Hr. reflexivity.
  - apply andb_true_iff in Hd as [Hc Hd]. rewrite Hc, (IH Hd). reflexivity.
Qed.

Lemma lenIn_spec (lo hi : nat) (s : string) :
  lenIn lo hi s = true <-> (lo <= String.length s <= hi)%nat.
Proof.
  unfold lenIn. rewrite andb_true_iff, !Nat.leb_le. reflexivity.
Qed.

Lemma matchGermanDate_spec (s day month year : string) :
  matchGermanDate s = Some (day, month, year) <->
  germanShape s day month year.
Proof.
  unfold matchGermanDate, germanShape. split.
  - destruct (JS.spanDigits s) as [d r1] eqn:E1.
    destruct (lenIn 1 2 d) eqn:L1; [|discriminate].
    destruct (JS.takeChar "." r1) as [r2|] eqn:C1; [|discriminate].
    destruct (JS.spanDigits r2) as [m r3] eqn:E2.
    destruct (lenIn 1 2 m) eqn:L2; [|discriminate].
    destruct (JS.takeChar "." r3) as [r4|] eqn:C2; [|discriminate].
    destruct (JS.spanDigits r4) as [y r5] eqn:E3.
    destruct (lenIn 2 4 y) eqn:L3; [|discriminate].
    destruct (String.eqb_spec r5 "") as [->|]; [|discriminate].
    intros [= <- <- <-].
    apply spanDigits_inv in E1 as (-> & D1 & _), E2 as (-> & D2 & _),
        E3 as (-> & D3 & _).
    apply takeChar_inv in C1 as ->, C2 as ->.
    apply lenIn_spec in L1, L2, L3. rewrite app_nil_r_s in *.
    repeat split; auto; lia.
  - intros (-> & D1 & D2 & D3 & L1 & L2 & L3).
    rewrite (spanDigits_app day) by (auto; reflexivity).
    apply lenIn_spec in L1, L2, L3. rewrite L1, takeChar_lit.
    rewrite (spanDigits_app month) by (auto; reflexivity).
    rewrite L2, takeChar_lit.
    rewrite <- (app_nil_r_s year) at 1.
    rewrite (spanDigits_app year) by (auto; reflexivity).
    rewrite L3. reflexivity.
Qed.

Lemma allDigits_repeat_zero (n : nat) :
  JS.allDigits (JS.repeatChar "0" n) = true.
Proof. induction n; simpl; auto. Qed.

Lemma parseDigits_repeat_zero (n : nat) (s : string) :
  JS.parseDigits 0 (JS.repeatChar "0" n ++ s) = JS.parseDigits 0 s.
Proof. induction n; simpl; auto. Qed.

Lemma padStart_digitRun (s : string) :
  JS.allDigits s = true -> (1 <= String.length s <= 2)%nat ->
  digitRun 2 (JS.padStart 2 "0" s)
  /\ JS.parseInt (JS.padStart 2 "0" s) = JS.parseInt s.
Proof.
  intros Hd Hl. unfold JS.padStart, digitRun, JS.parseInt.
  rewrite length_app_s, allDigits_app, allDigits_repeat_zero, Hd,
    parseDigits_repeat_zero.
  repeat split.
  assert (E : forall n, String.length (JS.repeatChar "0" n) = n)
    by (induction n; simpl; congruence).
  rewrite E. lia.
Qed.

Lemma padStart_full (s : string) :
  String.length s = 2%nat -> JS.padStart 2 "0" s = s.
Proof. intros H. unfold JS.padStart. rewrite H. reflexivity. Qed.

Lemma expandYear_digitRun (year : string) :
  JS.allDigits year = true -> (2 <= String.length year <= 4)%nat ->
  String.length year <> 3%nat -> digitRun 4 (expandYear year).
Proof.
  intros Hd Hl H3. unfold expandYear, digitRun.
  destruct (Nat.eqb_spec (String.length year) 2) as [E|E].
  - simpl. rewrite E, Hd. auto.
  - split; [lia|exact Hd].
Qed.

Lemma expandYear_allDigits (year : string) :
  JS.allDigits year = true -> JS.allDigits (expandYear year) = true.
Proof.
  intros Hd. unfold expandYear.
  destruct (String.length year =? 2)%nat; simpl; auto.
Qed.

Lemma isoFields_midnight (year month day : string) :
  digitRun 4 year -> digitRun 2 month -> digitRun 2 day ->
  JSDate.isoFields (year ++ "-" ++ month ++ "-" ++ day ++ "T00:00:00Z")
  = Some (JS.parseInt year, JS.parseInt month, JS.parseInt day, 0, 0, 0).
Proof.
  intros Hy Hm Hd. unfold JSDate.isoFields.
  rewrite (takeDigits_app 4 year _ Hy), takeChar_lit.
  rewrite (takeDigits_app 2 month _ Hm), takeChar_lit.
  rewrite (takeDigits_app 2 day _ Hd).
  reflexivity.
Qed.

Lemma daysInMonth_le_31 (y m : Z) : EcmaDate.daysInMonth y m <= 31.
Proof.
  unfold EcmaDate.daysInMonth.
  destruct m as [|[[[|[]|]|[[]|[]|]|]|[[|[]|]|[]|]|]|];
    destruct (EcmaDate.isLeap y); lia.
Qed.

(** The time value of [new Date(year-month-dayT00:00:00Z)] for a day of
    the calendar: midnight UTC of that day. *)
Lemma parse_midnight (pf : Platform) (year month day : string) :
  digitRun 4 year -> digitRun 2 month -> digitRun 2 day ->
  validDate (JS.parseInt year) (JS.parseInt month) (JS.parseInt day) ->
  JSDate.parse pf (year ++ "-" ++ month ++ "-" ++ day ++ "T00:00:00Z")
  = Some (EcmaDate.MakeDay (JS.parseInt year) (JS.parseInt month - 1)
            (JS.parseInt day) * EcmaDate.msPerDay).
Proof.
  intros Hy Hm Hd [HM HD]. unfold JSDate.parse.
  rewrite (isoFields_midnight year month day Hy Hm Hd).
  pose proof (daysInMonth_le_31 (JS.parseInt year) (JS.parseInt month)).
  assert (Hmax : (JS.parseInt day
                  <=? (if lenientDay pf then 31
                       else EcmaDate.daysInMonth (JS.parseInt year)
                              (JS.parseInt month))) = true).
  { apply Z.leb_le. destruct (lenientDay pf); lia. }
  rewrite Hmax.
  replace (1 <=? JS.parseInt month) with true by (symmetry; apply Z.leb_le; lia).
  replace (JS.parseInt month <=? 12) with true by (symmetry; apply Z.leb_le; lia).
  replace (1 <=? JS.parseInt day) with true by (symmetry; apply Z.leb_le; lia).
  cbn [andb orb Z.leb Z.compare]. unfold EcmaDate.MakeDate, EcmaDate.MakeTime.
  f_equal. lia.
Qed.

Lemma differs_false (x : option Z) (n : Z) :
  JSDate.differs x n = false <-> x = Some n.
Proof.
  destruct x as [v|]; simpl; split; try discriminate.
  - intros H. apply negb_false_iff, Z.eqb_eq in H. congruence.
  - intros [= ->]. rewrite Z.eqb_refl. reflexivity.
Qed.

(** [parseGermanDate] after the regular expression has matched. *)
Lemma parseGermanDate_matched (pf : Platform) (s day month year : string) :
  germanShape s day month year ->
  parseGermanDate pf (Some s)
  = let date :=
      JSDate.parse pf (expandYear year ++ "-" ++ JS.padStart 2 "0" month
                       ++ "-" ++ JS.padStart 2 "0" day ++ "T00:00:00Z") in
    if JSDate.differs (JSDate.getFullYear pf date)
         (JS.parseInt (expandYear year))
       || JSDate.differs
            (option_map (fun m => m + 1) (JSDate.getMonth pf date))
            (JS.parseInt (JS.padStart 2 "0" month))
       || JSDate.differs (JSDate.getDate pf date)
            (JS.parseInt (JS.padStart 2 "0" day))
    then None
    else Some (isoOf day month year).
Proof.
  intros Hs. pose proof Hs as (E & _ & _ & _ & L & _).
  apply matchGermanDate_spec in Hs.
  unfold parseGermanDate. rewrite Hs.
  assert (Ht : JS.truthy s = true).
  { apply truthy_length. rewrite E, length_app_s. lia. }
  rewrite Ht. reflexivity.
Qed.

(** Whatever the browser, a string that [parseGermanDate] accepts has the
    shape [day.month.year], names a day of the calendar, and the result is
    that day in ISO form. *)
Lemma parseGermanDate_sound (pf : Platform) (s r : string) :
  parseGermanDate pf (Some s) = Some r ->
  exists day month year,
    germanShape s day month year /\ r = isoOf day month year /\
    denotesDate day month year.
Proof.
  intros H.
  destruct (matchGermanDate s) as [[[day month] year]|] eqn:M.
  - apply matchGermanDate_spec in M.
    rewrite (parseGermanDate_matched pf s day month year M) in H.
    cbv zeta in H.
    match type of H with (if ?c then _ else _) = _ => destruct c eqn:C end;
      [discriminate|].
    injection H as <-.
    apply orb_false_iff in C as [C C3]. apply orb_false_iff in C as [C1 C2].
    apply differs_false in C1, C2, C3.
    pose proof M as (E & D1 & D2 & D3 & L1 & L2 & L3).
    destruct (padStart_digitRun day D1 L1) as [_ P1].
    destruct (padStart_digitRun month D2 L2) as [_ P2].
    rewrite P1 in C3. rewrite P2 in C2.
    exists day, month, year. split; [exact M|]. split; [reflexivity|].
    destruct (JSDate.parse pf _) as [t|]; [|discriminate].
    simpl in C1, C2, C3. injection C1 as C1. injection C2 as C2.
    injection C3 as C3.
    unfold denotesDate. rewrite <- C1, <- C2, <- C3.
    apply Getters.getters_valid.
  - unfold parseGermanDate in H. rewrite M in H.
    destruct (JS.truthy s); discriminate.
Qed.

(** With a parser that knows no format but the ISO one, the year of an
    accepted string has two or four digits. *)
Lemma parseGermanDate_year_length (pf : Platform) (s day month year : string) :
  (forall x, otherDateParse pf x = None) ->
  germanShape s day month year ->
  parseGermanDate pf (Some s) <> None ->
  String.length year = 2%nat \/ String.length year = 4%nat.
Proof.
  intros Ho M H.
  destruct (Nat.eq_dec (String.length year) 3) as [E3|];
    [|destruct M as (_ & _ & _ & _ & _ & _ & L); lia].
  exfalso. apply H.
  rewrite (parseGermanDate_matched pf s day month year M). cbv zeta.
  destruct M as (_ & _ & _ & D3 & _ & _ & _).
  assert (N : JSDate.parse pf
                (expandYear year ++ "-" ++ JS.padStart 2 "0" month ++ "-"
                 ++ JS.padStart 2 "0" day ++ "T00:00:00Z") = None).
  { unfold JSDate.parse, JSDate.isoFields, expandYear. rewrite E3.
    destruct year as [|a [|b [|c [|e r]]]]; try discriminate E3.
    simpl in D3. rewrite !andb_true_iff in D3. destruct D3 as (Ha & Hb & Hc & _).
    simpl. rewrite Ha, Hb, Hc. apply Ho. }
  rewrite N. reflexivity.
Qed.

Lemma Day_midnight_east (n tz : Z) :
  0 <= tz < EcmaDate.msPerDay ->
  EcmaDate.Day (n * EcmaDate.msPerDay + tz) = n.
Proof.
  intros H. unfold EcmaDate.Day.
  symmetry. apply (Z.div_unique _ _ n tz); [left; exact H|].
  unfold EcmaDate.msPerDay. lia.
Qed.

Lemma Day_midnight_west (n tz : Z) :
  - EcmaDate.msPerDay <= tz < 0 ->
  EcmaDate.Day (n * EcmaDate.msPerDay + tz) = n - 1.
Proof.
  intros H. unfold EcmaDate.Day.
  symmetry. apply (Z.div_unique _ _ (n - 1) (tz + EcmaDate.msPerDay)).
  - left. lia.
  - unfold EcmaDate.msPerDay in *. lia.
Qed.

(** The fields of the date that [parseGermanDate] builds. *)
Lemma built_fields (s day month year : string) :
  germanShape s day month year ->
  String.length year <> 3%nat ->
  digitRun 4 (expandYear year)
  /\ digitRun 2 (JS.padStart 2 "0" month)
  /\ digitRun 2 (JS.padStart 2 "0" day)
  /\ JS.parseInt (JS.padStart 2 "0" month) = JS.parseInt month
  /\ JS.parseInt (JS.padStart 2 "0" day) = JS.parseInt day.
Proof.
  intros (_ & D1 & D2 & D3 & L1 & L2 & L3) H3.
  destruct (padStart_digitRun day D1 L1) as [R1 P1].
  destruct (padStart_digitRun month D2 L2) as [R2 P2].
  split; [apply expandYear_digitRun; auto|]. auto.
Qed.

(** The date that [parseGermanDate] builds for a day of the calendar. *)
Lemma built_date (pf : Platform) (s day month year : string) :
  germanShape s day month year -> String.length year <> 3%nat ->
  denotesDate day month year ->
  JSDate.parse pf (expandYear year ++ "-" ++ JS.padStart 2 "0" month
                   ++ "-" ++ JS.padStart 2 "0" day ++ "T00:00:00Z")
  = Some (EcmaDate.MakeDay (JS.parseInt (expandYear year))
            (JS.parseInt month - 1) (JS.parseInt day) * EcmaDate.msPerDay).
Proof.
  intros M H3 V.
  destruct (built_fields s day month year M H3) as (Ry & Rm & Rd & Pm & Pd).
  rewrite (parse_midnight pf _ _ _ Ry Rm Rd); rewrite Pm, Pd; auto.
Qed.

(** East of Greenwich every well-shaped day of the calendar is accepted. *)
Lemma parseGermanDate_east (pf : Platform) (s day month year : string) :
  eastOfGreenwich pf ->
  germanShape s day month year -> String.length year <> 3%nat ->
  denotesDate day month year ->
  parseGermanDate pf (Some s) = Some (isoOf day month year).
Proof.
  intros He M H3 V.
  rewrite (parseGermanDate_matched pf s day month year M). cbv zeta.
  rewrite (built_date pf s day month year M H3 V).
  destruct (built_fields s day month year M H3) as (_ & _ & _ & Pm & Pd).
  rewrite Pm, Pd.
  set (n := EcmaDate.MakeDay _ _ _).
  destruct (Getters.getters_of_date _ _ _ (JSDate.LocalTime pf (n * EcmaDate.msPerDay)) V)
    as (GY & GM & GD).
  { unfold JSDate.LocalTime. apply Day_midnight_east, He. }
  unfold JSDate.getFullYear, JSDate.getMonth, JSDate.getDate. simpl option_map.
  rewrite GY, GM, GD. unfold JSDate.differs.
  replace (JS.parseInt month - 1 + 1) with (JS.parseInt month) by lia.
  rewrite !Z.eqb_refl. reflexivity.
Qed.

(** West of Greenwich every well-shaped day of the calendar is rejected:
    midnight UTC is still the evening before in local time. *)
Lemma parseGermanDate_west (pf : Platform) (s day month year : string) :
  westOfGreenwich pf ->
  germanShape s day month year -> String.length year <> 3%nat ->
  denotesDate day month year ->
  parseGermanDate pf (Some s) = None.
Proof.
  intros Hw M H3 V.
  rewrite (parseGermanDate_matched pf s day month year M). cbv zeta.
  rewrite (built_date pf s day month year M H3 V).
  destruct (built_fields s day month year M H3) as (_ & _ & _ & Pm & Pd).
  rewrite Pm, Pd.
  set (n := EcmaDate.MakeDay _ _ _).
  match goal with |- (if ?c then _ else _) = _ => destruct c eqn:C end;
    [reflexivity|exfalso].
  apply orb_false_iff in C as [C C3]. apply orb_false_iff in C as [C1 C2].
  apply differs_false in C1, C2, C3.
  unfold JSDate.getFullYear, JSDate.getMonth, JSDate.getDate in *.
  simpl in C1, C2, C3.
  injection C1 as C1. injection C2 as C2. injection C3 as C3.
  set (lt := JSDate.LocalTime pf (n * EcmaDate.msPerDay)) in *.
  pose proof (Getters.getters_inverse lt) as G.
  rewrite C1, C3 in G.
  replace (EcmaDate.MonthFromTime lt) with (JS.parseInt month - 1) in G by lia.
  fold n in G.
  unfold lt, JSDate.LocalTime in G.
  rewrite Day_midnight_west in G by apply Hw. lia.
Qed.

(** The shape of what [formatDate] makes of an ISO date. *)
Lemma formatDate_isoDate (y m d : string) :
  digitRun 4 y -> digitRun 2 m -> digitRun 2 d ->
  formatDate (Some (y ++ "-" ++ m ++ "-" ++ d)) = d ++ "." ++ m ++ "." ++ y
  /\ germanShape (d ++ "." ++ m ++ "." ++ y) d m y
  /\ isoOf d m y = y ++ "-" ++ m ++ "-" ++ d
  /\ expandYear y = y.
Proof.
  intros Hy Hm Hd.
  destruct (formatDate_parts y m d "" Hy Hm Hd) as [_ HF].
  cbv zeta in HF. simpl JS.split in HF. simpl hd in HF.
  rewrite !app_nil_r_s in HF.
  destruct Hy as [Ly Dy], Hm as [Lm Dm], Hd as [Ld Dd].
  assert (Ey : expandYear y = y) by (unfold expandYear; rewrite Ly; reflexivity).
  repeat split; auto; try lia.
  unfold isoOf. rewrite Ey, !padStart_full; auto.
Qed.

(** East of Greenwich, parsing what [formatDate] made of a calendar date
    gives the date back. *)
Lemma formatDate_roundtrip_east (pf : Platform) (d : string) :
  eastOfGreenwich pf -> isIsoDate d ->
  parseGermanDate pf (Some (formatDate (Some d))) = Some d.
Proof.
  intros He (y & m & dd & Hy & Hm & Hd & -> & V).
  destruct (formatDate_isoDate y m dd Hy Hm Hd) as (-> & M & <- & Ey).
  apply parseGermanDate_east; auto.
  - destruct Hy as [-> _]. discriminate.
  - unfold denotesDate. rewrite Ey. exact V.
Qed.

Lemma germanShape_unique (s day month year day' month' year' : string) :
  germanShape s day month year -> germanShape s day' month' year' ->
  day = day' /\ month = month' /\ year = year'.
Proof.
  intros H1 H2. apply matchGermanDate_spec in H1, H2.
  rewrite H1 in H2. injection H2 as -> -> ->. auto.
Qed.

(** Whatever the browser, a well-shaped string that names no day of the
    calendar is rejected. *)
Lemma parseGermanDate_rejects_invalid (pf : Platform)
    (s day month year : string) :
  germanShape s day month year -> ~ denotesDate day month year ->
  parseGermanDate pf (Some s) = None.
Proof.
  intros M NV. destruct (parseGermanDate pf (Some s)) as [r|] eqn:E; auto.
  destruct (parseGermanDate_sound pf s r E) as (d' & m' & y' & M' & _ & V).
  destruct (germanShape_unique _ _ _ _ _ _ _ M M') as (-> & -> & ->).
  contradiction.
Qed.

(** Whatever the browser, a string that is not of the shape is rejected. *)
Lemma parseGermanDate_rejects_malformed (pf : Platform) (s : string) :
  (forall day month year, ~ germanShape s day month year) ->
  parseGermanDate pf (Some s) = None.
Proof.
  intros N. destruct (parseGermanDate pf (Some s)) as [r|] eqn:E; auto.
  destruct (parseGermanDate_sound pf s r E) as (d & m & y & M & _).
  destruct (N d m y M).
Qed.

(** The two rejections that the specification lists, in every browser. *)
Lemma parseGermanDate_listed_rejections (pf : Platform) :
  parseGermanDate pf (Some "31.02.2024") = None
  /\ parseGermanDate pf (Some "2024-02-31") = None
  /\ parseGermanDate pf None = None
  /\ parseGermanDate pf (Some "") = None.
Proof.
  split; [|repeat split].
  apply (parseGermanDate_rejects_invalid pf _ "31" "02" "2024").
  - apply matchGermanDate_spec. reflexivity.
  - intros (_ & _ & H). vm_compute in H. apply H. reflexivity.
Qed.

(** In a browser east of Greenwich whose parser knows no format but the
    ISO one, [parseGermanDate] accepts exactly the well-shaped days of the
    calendar with a year of two or four digits. *)
Lemma parseGermanDate_exact_east (pf : Platform) (s r : string) :
  eastOfGreenwich pf -> (forall x, otherDateParse pf x = None) ->
  parseGermanDate pf (Some s) = Some r <->
  exists day month year,
    germanShape s day month year
    /\ (String.length year = 2%nat \/ String.length year = 4%nat)
    /\ denotesDate day month year
    /\ r = isoOf day month year.
Proof.
  intros He Ho. split.
  - intros H.
    destruct (parseGermanDate_sound pf s r H) as (d & m & y & M & -> & V).
    exists d, m, y. split; [exact M|]. split; [|split; [exact V|reflexivity]].
    apply (parseGermanDate_year_length pf s d m y Ho M). congruence.
  - intros (d & m & y & M & L & V & ->).
    apply parseGermanDate_east; auto.
    destruct L as [L|L]; rewrite L; discriminate.
Qed.

(** Claim C1, where the code departs from it.  The claim is that
    [parseGermanDate (formatDate d)] gives [d] back for every calendar date
    [d] written [YYYY-MM-DD].  [parseGermanDate] builds the date at
    midnight UTC and reads it back with the local-time getters, so in a
    browser whose time zone is west of Greenwich the day read back is the
    day before and every calendar date is rejected.
    ([formatDate_roundtrip_east] above is the round trip east of
    Greenwich.) *)
Theorem formatDate_roundtrip_fails_west (pf : Platform) (d : string) :
  westOfGreenwich pf -> isIsoDate d ->
  parseGermanDate pf (Some (formatDate (Some d))) = None.
Proof.
  intros Hw (y & m & dd & Hy & Hm & Hd & -> & V).
  destruct (formatDate_isoDate y m dd Hy Hm Hd) as (-> & M & _ & Ey).
  apply (parseGermanDate_west pf _ dd m y); auto.
  - destruct Hy as [-> _]. discriminate.
  - unfold denotesDate. rewrite Ey. exact V.
Qed.

Lemma formatDate_roundtrip_fails_west_witness :
  parseGermanDate (browserAt (-5) false)
    (Some (formatDate (Some "2024-03-01"))) = None.
Proof.
  apply formatDate_roundtrip_fails_west.
  - intros t. cbn. lia.
  - exists "2024", "03", "01". repeat split; evaluate.
Defined.

(** Claim C2, where the code departs from it.  The claim is that
    [parseGermanDate] accepts exactly the strings [D.M.YY] to [DD.MM.YYYY]
    that name a day of the calendar.  [01.03.2024] has the shape and names
    a day, and is accepted one hour east of Greenwich but rejected five
    hours west of it.  (What holds in every browser is above:
    [parseGermanDate_sound], [parseGermanDate_listed_rejections]; and
    [parseGermanDate_exact_east] is the claim east of Greenwich.) *)
Theorem parseGermanDate_rejects_valid_date_west :
  germanShape "01.03.2024" "01" "03" "2024"
  /\ denotesDate "01" "03" "2024"
  /\ parseGermanDate (browserAt (-5) false) (Some "01.03.2024") = None
  /\ parseGermanDate (browserAt 1 false) (Some "01.03.2024")
     = Some "2024-03-01".
Proof.
  split; [|split; [|split]].
  - repeat split; evaluate.
  - repeat split; evaluate.
  - evaluate.
  - evaluate.
Qed.

(** ** [entriesToCSV] *)

Lemma escapeCell_quotedCell (s : string) : escapeCell s = quotedCell s.
Proof.
  unfold escapeCell, quotedCell. simpl. f_equal. f_equal.
  induction s as [|c r IH]; simpl; auto.
  destruct (Ascii.eqb c dquote); simpl; rewrite IH; reflexivity.
Qed.

Lemma orElse_empty (s : string) : JS.orElse s "" = s.
Proof. destruct s; reflexivity. Qed.

Lemma csvRow_line (e : Entry) :
  JS.join ";" (map escapeCell (csvRow e)) = entryLine e.
Proof.
  unfold csvRow, entryLine, JS.join. cbn [map String.concat JS.nullish].
  rewrite !orElse_empty, !escapeCell_quotedCell. reflexivity.
Qed.

Lemma csvHeader_line :
  JS.join ";" (map escapeCell csvHeader) = headerLine.
Proof. reflexivity. Qed.

Lemma join_cons (sep x y : string) (l : list string) :
  JS.join sep (x :: y :: l) = x ++ sep ++ JS.join sep (y :: l).
Proof. reflexivity. Qed.

Lemma join_lines (h : string) (es : list Entry) :
  JS.join newline
    (h :: map (fun row => JS.join ";" (map escapeCell row)) (map csvRow es))
  = h ++ entryLines es.
Proof.
  revert h. induction es as [|e r IH]; intros h.
  - simpl. rewrite app_nil_r_s. reflexivity.
  - cbn [map entryLines]. rewrite join_cons, IH, csvRow_line. reflexivity.
Qed.

Lemma replaceFirst_single (s : string) :
  (countChar "." s <= 1)%nat ->
  JS.replaceFirst "." "," s = pointsToCommas s
  /\ occurs "." (JS.replaceFirst "." "," s) = false.
Proof.
  induction s as [|c r IH]; simpl; [auto|].
  destruct (Ascii.eqb_spec c ".") as [->|Hc]; intros H.
  - assert (H0 : countChar "." r = 0%nat) by lia.
    assert (E : pointsToCommas r = r /\ occurs "." r = false).
    { clear -H0. induction r as [|x r IH]; simpl in *; auto.
      destruct (Ascii.eqb x "."); [discriminate|].
      destruct (IH H0) as [-> ->]. auto. }
    destruct E as [-> E]. simpl. auto.
  - destruct (IH H) as [-> E]. simpl.
    destruct (Ascii.eqb_spec c ".") as [|_]; [contradiction|]. auto.
Qed.

(** Claim C3.  [entriesToCSV] gives the header line
    [Lieferant;Rechnungsnummer;Datum;Betrag] followed by one line per
    entry in the order of the entries, each after a line feed; every cell
    of every line stands between double quotes with its own double quotes
    doubled, cells are separated by semicolons; the third cell of a row is
    [formatDate] of the invoice date and the fourth is the amount with its
    decimal point turned into a comma. *)
Theorem entriesToCSV_format :
  (forall entries, entriesToCSV entries = headerLine ++ entryLines entries)
  /\ escapeCell ("He said " ++ dq ++ "hi" ++ dq)
     = dq ++ "He said " ++ dq ++ dq ++ "hi" ++ dq ++ dq ++ dq
  /\ (forall e,
        (countChar "." (totalAmount e) <= 1)%nat ->
        nth 3 (csvRow e) "" = pointsToCommas (totalAmount e)
        /\ occurs "." (nth 3 (csvRow e) "") = false)
  /\ (forall e, nth 2 (csvRow e) "" = formatDate (invoiceDate e)).
Proof.
  split; [|split; [|split]].
  - intros entries. unfold entriesToCSV. cbv zeta. cbn [map].
    rewrite csvHeader_line. apply join_lines.
  - reflexivity.
  - intros e H. apply (replaceFirst_single _ H).
  - reflexivity.
Qed.

Lemma entriesToCSV_format_witness :
  let e := {| vendor := "ACME"; invoiceNumber := "INV-1";
              invoiceDate := Some "2024-03-01"; totalAmount := "19.99";
              imageName := "a.jpg"; capturedAt := "t" |} in
  nth 3 (csvRow e) "" = pointsToCommas (totalAmount e)
  /\ occurs "." (nth 3 (csvRow e) "") = false.
Proof.
  apply (proj1 (proj2 (proj2 entriesToCSV_format))). simpl. lia.
Defined.

(** ** The upload log *)

Section UploadLog.

Lemma ids_filter (i : string) (log : list UploadLogEntry) :
  ids (filter (fun item => negb (String.eqb (id item) i)) log)
  = filter (notId i) (ids log).
Proof.
  unfold ids. induction log as [|e r IH]; simpl; auto.
  change (notId i (id e)) with (negb (String.eqb (id e) i)).
  destruct (String.eqb (id e) i); simpl; [exact IH | f_equal; exact IH].
Qed.

Lemma ids_updateUploadLog (now : string) (u : LogUpdate)
    (prev : list UploadLogEntry) :
  ids (updateUploadLog now u prev)
  = firstn 5 (u_id u :: filter (notId (u_id u)) (ids prev)).
Proof.
  unfold updateUploadLog, ids. cbv zeta. rewrite <- firstn_map.
  cbn [map id]. fold (ids prev).
  rewrite <- ids_filter. reflexivity.
Qed.

Lemma ids_rename (prompt : string -> option string) (i : string)
    (prev : list UploadLogEntry) :
  ids (handleRenameUploadLog prompt i prev) = ids prev.
Proof.
  unfold handleRenameUploadLog.
  destruct (findById i prev); auto.
  destruct (prompt _); auto.
  destruct (JS.truthy _); auto. simpl.
  unfold ids. rewrite map_map. apply map_ext.
  intros e. destruct (String.eqb (id e) i); reflexivity.
Qed.

Lemma length_rename (prompt : string -> option string) (i : string)
    (prev : list UploadLogEntry) :
  List.length (handleRenameUploadLog prompt i prev) = List.length prev.
Proof.
  rewrite <- (length_map id (handleRenameUploadLog prompt i prev)).
  fold (ids (handleRenameUploadLog prompt i prev)).
  rewrite ids_rename. apply length_map.
Qed.

Lemma ids_remove (i : string) (prev : list UploadLogEntry) :
  ids (handleRemoveUploadLog i prev) = filter (notId i) (ids prev).
Proof. apply ids_filter. Qed.

Lemma in_firstn {A : Type} (x : A) (n : nat) (l : list A) :
  In x (firstn n l) -> In x l.
Proof.
  revert n. induction l as [|y l IH]; intros [|n]; simpl; try tauto.
  intros [->|H]; eauto.
Qed.

Lemma NoDup_firstn_ids (n : nat) (l : list string) :
  NoDup l -> NoDup (firstn n l).
Proof.
  intros H. revert n. induction H as [|x l Hx H IH]; intros [|n]; simpl;
    try constructor; auto.
  intros Hin. apply Hx. eapply in_firstn, Hin.
Qed.

Lemma notId_filter_absent (i : string) (l : list string) :
  ~ In i (filter (notId i) l).
Proof.
  intros H. apply filter_In in H as [_ H].
  unfold notId in H. rewrite String.eqb_refl in H. discriminate.
Qed.

Lemma NoDup_upsert_ids (i : string) (l : list string) :
  NoDup l -> NoDup (i :: filter (notId i) l).
Proof.
  intros H. constructor; [apply notId_filter_absent|].
  apply NoDup_filter, H.
Qed.

Lemma applyLogOp_invariant (log : list UploadLogEntry) (op : LogOp) :
  logInvariant log -> logInvariant (applyLogOp log op).
Proof.
  intros [Hl Hn]. destruct op as [now u|prompt i|i]; simpl; split.
  - unfold updateUploadLog. cbv zeta.
    rewrite length_firstn. apply Nat.le_min_l.
  - rewrite ids_updateUploadLog.
    apply NoDup_firstn_ids, NoDup_upsert_ids, Hn.
  - rewrite length_rename. exact Hl.
  - rewrite ids_rename. exact Hn.
  - unfold handleRemoveUploadLog.
    pose proof (filter_length_le
                  (fun item => negb (String.eqb (id item) i)) log). lia.
  - rewrite ids_remove. apply NoDup_filter, Hn.
Qed.

Lemma fold_invariant (ops : list LogOp) (log : list UploadLogEntry) :
  logInvariant log -> logInvariant (fold_left applyLogOp ops log).
Proof.
  revert log. induction ops as [|op ops IH]; intros log H; simpl; auto.
  apply IH, applyLogOp_invariant, H.
Qed.

(** Dropping one id from the first [n + 1] of a duplicate-free list
    leaves its first [n] without that id. *)
Lemma firstn_filter_firstn (i : string) (n : nat) (l : list string) :
  NoDup l ->
  firstn n (filter (notId i) (firstn (S n) l))
  = firstn n (filter (notId i) l).
Proof.
  intros H. revert n. induction H as [|x l Hx H IH]; intros n; auto.
  cbn [firstn filter]. change (notId i x) with (negb (String.eqb x i)).
  destruct (String.eqb_spec x i) as [->|Hne]; cbn [negb].
  - assert (E : forall k : list string,
               ~ In i k -> filter (notId i) k = k).
    { induction k as [|y k IHk]; simpl; auto. intros Hk.
      unfold notId at 1. destruct (String.eqb_spec y i) as [->|_].
      - exfalso. apply Hk. auto.
      - simpl. rewrite IHk; auto. }
    rewrite (E l Hx), E.
    + rewrite firstn_firstn, Nat.min_id. reflexivity.
    + intros Hin. apply Hx. eapply in_firstn, Hin.
  - destruct n as [|n]; [reflexivity|].
    cbn [firstn]. f_equal. apply IH.
Qed.

Lemma upserts_recency (l : list (string * LogUpdate))
    (log : list UploadLogEntry) (acc : list string) :
  NoDup acc -> ids log = firstn 5 acc ->
  ids (fold_left applyLogOp (upserts l) log)
  = firstn 5 (fold_left (fun a i => i :: filter (notId i) a)
                (upsertIds l) acc).
Proof.
  revert log acc. induction l as [|[now u] l IH]; intros log acc Hn Hi;
    simpl; auto.
  apply IH.
  - apply NoDup_upsert_ids, Hn.
  - rewrite ids_updateUploadLog, Hi, !firstn_cons.
    f_equal. apply (firstn_filter_firstn _ 4 acc Hn).
Qed.

Lemma recency_NoDup (l acc : list string) :
  NoDup (rev l ++ acc)%list -> (forall i, In i l -> ~ In i acc) ->
  fold_left (fun a i => i :: filter (notId i) a) l acc
  = (rev l ++ acc)%list.
Proof.
  revert acc. induction l as [|x l IH]; intros acc Hn Hd; simpl; auto.
  simpl in Hn. rewrite <- app_assoc in Hn. simpl in Hn.
  assert (E : filter (notId x) acc = acc).
  { assert (Hx : ~ In x acc) by (apply Hd; simpl; auto).
    clear -Hx. induction acc as [|y k IHk]; simpl; auto.
    unfold notId at 1. destruct (String.eqb_spec y x) as [->|_].
    - exfalso. apply Hx. simpl. auto.
    - simpl. rewrite IHk; auto. intros H. apply Hx. simpl. auto. }
  rewrite E, IH, <- app_assoc; auto.
  intros i Hi [<-|Hin].
  - apply NoDup_remove_2 in Hn. apply Hn.
    apply in_or_app. left. apply (proj1 (in_rev l _)), Hi.
  - apply (Hd i); simpl; auto.
Qed.

End UploadLog.

Lemma runLog_invariant (ops : list LogOp) :
  (List.length (runLog ops) <= 5)%nat /\ NoDup (ids (runLog ops)).
Proof.
  apply fold_invariant. split; simpl; [lia|constructor].
Qed.

Lemma runLog_recency (l : list (string * LogUpdate)) :
  ids (runLog (upserts l)) = firstn 5 (recency (upsertIds l)).
Proof.
  unfold runLog, recency. apply upserts_recency; [constructor|reflexivity].
Qed.

Lemma recency_distinct (l : list string) : NoDup l -> recency l = rev l.
Proof.
  intros H. unfold recency.
  rewrite recency_NoDup, app_nil_r; auto.
  rewrite app_nil_r. apply NoDup_rev, H.
Qed.

(** Claim C4.  After any run of upserts, renames and removals from the
    empty log, the log has at most five entries and no id twice.  An
    upsert puts its id in front, drops the earlier entry with that id and
    keeps the first five; a rename keeps ids and order, a removal only
    drops the id.  So after a run of upserts the ids are the five most
    recently upserted ones, most recent first; after six upserts with six
    different ids the log has exactly five entries, the last five ids in
    reverse order. *)
Theorem uploadLog_bounded_recent_first :
  (forall ops,
     (List.length (runLog ops) <= 5)%nat /\ NoDup (ids (runLog ops)))
  /\ (forall now u prev,
        ids (updateUploadLog now u prev)
        = firstn 5 (u_id u :: filter (notId (u_id u)) (ids prev)))
  /\ (forall prompt i prev,
        ids (handleRenameUploadLog prompt i prev) = ids prev)
  /\ (forall i prev,
        ids (handleRemoveUploadLog i prev) = filter (notId i) (ids prev))
  /\ (forall l, ids (runLog (upserts l)) = firstn 5 (recency (upsertIds l)))
  /\ (forall l,
        NoDup (upsertIds l) -> List.length l = 6%nat ->
        List.length (runLog (upserts l)) = 5%nat
        /\ ids (runLog (upserts l)) = firstn 5 (rev (upsertIds l))).
Proof.
  split; [exact runLog_invariant|].
  split; [exact ids_updateUploadLog|].
  split; [exact ids_rename|].
  split; [exact ids_remove|].
  split; [exact runLog_recency|].
  intros l Hn Hl.
  assert (E : ids (runLog (upserts l)) = firstn 5 (rev (upsertIds l))).
  { rewrite runLog_recency, recency_distinct; auto. }
  split; [|exact E].
  rewrite <- (length_map id). fold (ids (runLog (upserts l))).
  rewrite E, length_firstn, length_rev. unfold upsertIds.
  rewrite length_map, Hl. reflexivity.
Qed.

Lemma uploadLog_bounded_recent_first_witness :
  let l := map (fun i => ("2024-03-01T10:00:00.000Z", justId i))
             ["a"; "b"; "c"; "d"; "e"; "f"] in
  List.length (runLog (upserts l)) = 5%nat
  /\ ids (runLog (upserts l)) = ["f"; "e"; "d"; "c"; "b"].
Proof.
  apply (proj2 (proj2 (proj2 (proj2 (proj2 uploadLog_bounded_recent_first))))).
  - repeat constructor; simpl; intuition discriminate.
  - reflexivity.
Defined.

(** ** Merging an update into the log *)

Lemma updateUploadLog_cons (now : string) (u : LogUpdate)
    (prev : list UploadLogEntry) :
  updateUploadLog now u prev
  = mergedEntry now u (findById (u_id u) prev)
      :: firstn 4 (filter (fun item => notId (u_id u) (id item)) prev).
Proof.
  unfold updateUploadLog. cbv zeta. rewrite firstn_cons. f_equal.
  unfold mergedEntry, pick, orNull, JS.nullish.
  destruct (findById (u_id u) prev) as [e|];
    destruct (u_fileName u), (u_displayName u), (u_status u),
      (u_timestamp u), (u_message u); reflexivity.
Qed.




(** ** The submission pipeline *)

Section Pipeline.

Variable pf : Platform.
Variable amb : Ambient.

Lemma includes_app (p a b : string) :
  JS.includes p b = true -> JS.includes p (a ++ b) = true.
Proof.
  intros H. induction a as [|c a IH]; simpl; auto.
  rewrite IH. apply orb_true_r.
Qed.

(** Without a webhook nothing is started. *)
Lemma start_without_webhook (file : File) (st : AppState) :
  webhookUrl (settings st) = "" ->
  processFile_start amb file st
  = (setError (Some noWebhookMessage) st, None).
Proof.
  intros H. unfold processFile_start. rewrite H. reflexivity.
Qed.

(** With a webhook the submission is logged as pending and the request
    leaves; the record store is as it was. *)
Lemma start_with_webhook (file : File) (st : AppState) :
  webhookUrl (settings st) <> "" ->
  exists st1 sub,
    processFile_start amb file st = (st1, Some sub)
    /\ entries st1 = entries st
    /\ requests st1 = sub_request sub :: requests st
    /\ req_url (sub_request sub) = webhookUrl (settings st)
    /\ sub_metaLabel sub
       = JS.orElse (f_type file) "application/octet-stream" ++ " | "
         ++ formatFileSize (f_size file)
    /\ exists e,
         hd_error (uploadLog st1) = Some e /\ id e = sub_logId sub
         /\ status e = pending.
Proof.
  intros H. unfold processFile_start.
  destruct (String.eqb_spec (webhookUrl (settings st)) "") as [E|_];
    [contradiction|].
  unfold JS.truthy.
  destruct (String.eqb_spec (webhookUrl (settings st)) "") as [E|_];
    [contradiction|].
  cbn [negb]. eexists _, _. split; [reflexivity|].
  cbn -[updateUploadLog formatFileSize JS.ofZ JS.orElse].
  rewrite updateUploadLog_cons.
  repeat split. eexists. repeat split.
Qed.

(** What the [catch] block does, whatever was thrown and whatever the
    state by then. *)
Lemma settle_failure (sub : Submission) (out : FetchResult)
    (st : AppState) (thrown : Thrown) :
  readPayload pf out = inl thrown ->
  let st' := processFile_settle pf amb sub out st in
  entries st' = entries st
  /\ errorMsg st' = Some (thrownMessage thrown)
  /\ isLoading st' = false
  /\ requests st' = requests st
  /\ exists e,
       hd_error (uploadLog st') = Some e
       /\ id e = sub_logId sub /\ status e = error
       /\ message e
          = Some (sub_metaLabel sub ++ " | " ++ thrownMessage thrown)
       /\ forall e', In e' (tl (uploadLog st')) -> id e' <> sub_logId sub.
Proof.
  intros H st'. unfold st', processFile_settle. rewrite H.
  cbn -[updateUploadLog].
  repeat split.
  rewrite updateUploadLog_cons.
  eexists. repeat split.
  intros e' Hin. cbn [tl] in Hin.
  apply in_firstn in Hin. apply filter_In in Hin as [_ Hin].
  unfold notId in Hin. cbn in Hin. intros E.
  rewrite E, String.eqb_refl in Hin. discriminate.
Qed.

(** The failures of the [try] block. *)
Lemma readPayload_rejected (t : Thrown) :
  readPayload pf (FetchRejected t) = inl t.
Proof. reflexivity. Qed.

Lemma readPayload_status (r : Response) :
  resp_ok r = false ->
  readPayload pf (FetchResponse r)
  = inl (ThrownError
           ("Webhook antwortete mit Status " ++ JS.ofZ (resp_status r))).
Proof. intros H. unfold readPayload. rewrite H. reflexivity. Qed.

Lemma readPayload_empty (r : Response) :
  resp_ok r = true ->
  JS.includes "application/json"
    (JS.orElse (JS.nullish (resp_contentType r) "") "") = false ->
  resp_body r = inr "" ->
  readPayload pf (FetchResponse r)
  = inl (ThrownError "Server lieferte eine leere Antwort.").
Proof.
  intros H1 H2 H3. unfold readPayload. rewrite H1, H2, H3. reflexivity.
Qed.

Lemma readPayload_unparseable (r : Response) (text : string) :
  resp_ok r = true -> resp_body r = inr text ->
  JSON_parse pf text = None ->
  exists msg, readPayload pf (FetchResponse r) = inl (ThrownError msg).
Proof.
  intros H1 H2 H3. unfold readPayload. rewrite H1, H2, H3. cbn [negb].
  destruct (JS.includes _ _); [eauto|].
  destruct (JS.truthy text); cbn [negb]; eauto.
Qed.

(** What the [try] block does once the payload is read: the new entry in
    front of the record store, the log entry marked [success]. *)
Lemma settle_success (sub : Submission) (out : FetchResult)
    (st : AppState) (payload : Payload) :
  readPayload pf out = inr payload ->
  let st' := processFile_settle pf amb sub out st in
  exists newEntry e,
    entries st' = newEntry :: entries st
    /\ lastResult st' = Some newEntry
    /\ vendor newEntry = fieldOr (p_vendor payload) ""
    /\ invoiceDate newEntry = Some (fieldOr (p_invoiceDate payload) "")
    /\ totalAmount newEntry = fieldOr (p_totalAmount payload) "0"
    /\ imageName newEntry = f_name (sub_file sub)
    /\ capturedAt newEntry = isoCaptured amb
    /\ isLoading st' = false
    /\ errorMsg st' = errorMsg st
    /\ hd_error (uploadLog st') = Some e
    /\ id e = sub_logId sub /\ status e = success.
Proof.
  intros H st'. unfold st', processFile_settle. rewrite H.
  eexists _, _.
  destruct (sub_lastPreviewUrl sub) as [u|]; [destruct (JS.truthy u)|];
    cbn -[updateUploadLog]; rewrite updateUploadLog_cons;
    repeat split.
Qed.

Lemma readPayload_body_failure (r : Response) (t : Thrown) :
  resp_ok r = true -> resp_body r = inl t ->
  readPayload pf (FetchResponse r) = inl t.
Proof.
  intros H1 H2. unfold readPayload. rewrite H1, H2. cbn [negb].
  destruct (JS.includes _ _); reflexivity.
Qed.

End Pipeline.

(** Claim C6.  With an empty webhook URL [processFile] only sets the
    error message: no log entry is made, the record store is as it was,
    no request is issued, and nothing is left waiting. *)
Theorem processFile_without_webhook (pf : Platform) (amb : Ambient)
    (net : HttpRequest -> FetchResult) (file : File) (st : AppState) :
  webhookUrl (settings st) = "" ->
  let st' := processFile pf amb net file st in
  st' = setError (Some noWebhookMessage) st
  /\ errorMsg st' = Some noWebhookMessage
  /\ uploadLog st' = uploadLog st
  /\ entries st' = entries st
  /\ requests st' = requests st
  /\ isLoading st' = isLoading st
  /\ snd (processFile_start amb file st) = None.
Proof.
  intros H st'. unfold st', processFile.
  rewrite (start_without_webhook amb file st H). repeat split.
Qed.

Lemma processFile_without_webhook_witness :
  let amb := {| dateNow := 1709287200000;
                isoStarted := "2024-03-01T10:00:00.000Z";
                isoCaptured := "2024-03-01T10:00:01.000Z";
                isoSettled := "2024-03-01T10:00:01.001Z";
                objectUrl := "blob:1" |} in
  let file := {| f_name := "a.jpg"; f_type := "image/jpeg";
                 f_size := 10240 |} in
  let st' :=
    processFile (browserAt 1 false) amb
      (fun _ => FetchRejected (ThrownError "Failed to fetch")) file
      initialState in
  st' = setError (Some noWebhookMessage) initialState
  /\ errorMsg st' = Some noWebhookMessage
  /\ uploadLog st' = []
  /\ entries st' = []
  /\ requests st' = []
  /\ isLoading st' = false
  /\ snd (processFile_start amb file initialState) = None.
Proof.
  intros amb file.
  apply (processFile_without_webhook (browserAt 1 false) amb _ file
           initialState).
  reflexivity.
Defined.

(** A submission that fails after it was started: from [pending] to
    [error], the record store as it was. *)
Lemma processFile_pending_to_error (pf : Platform) (amb : Ambient)
    (net : HttpRequest -> FetchResult) (file : File) (st : AppState)
    (thrown : Thrown) :
  webhookUrl (settings st) <> "" ->
  (forall req, readPayload pf (net req) = inl thrown) ->
  let st' := processFile pf amb net file st in
  let meta :=
    JS.orElse (f_type file) "application/octet-stream" ++ " | "
    ++ formatFileSize (f_size file) in
  entries st' = entries st
  /\ errorMsg st' = Some (thrownMessage thrown)
  /\ isLoading st' = false
  /\ exists st1 sub e0 e,
       processFile_start amb file st = (st1, Some sub)
       /\ hd_error (uploadLog st1) = Some e0
       /\ id e0 = sub_logId sub /\ status e0 = pending
       /\ hd_error (uploadLog st') = Some e
       /\ id e = sub_logId sub /\ status e = error
       /\ message e = Some (meta ++ " | " ++ thrownMessage thrown)
       /\ forall e', In e' (tl (uploadLog st')) -> id e' <> sub_logId sub.
Proof.
  intros Hw Hnet st' meta.
  destruct (start_with_webhook amb file st Hw)
    as (st1 & sub & Hs & He & _ & _ & Hm & e0 & H0 & Hi0 & Hp0).
  assert (E : st' = processFile_settle pf amb sub (net (sub_request sub)) st1).
  { unfold st', processFile. rewrite Hs. reflexivity. }
  destruct (settle_failure pf amb sub _ st1 thrown (Hnet (sub_request sub)))
    as (H1 & H2 & H3 & _ & e & H4 & H5 & H6 & H7 & H8).
  rewrite <- E in *.
  split; [congruence|]. split; [exact H2|]. split; [exact H3|].
  exists st1, sub, e0, e. unfold meta. rewrite <- Hm. repeat split; auto.
Qed.

(** Claim C7.  When the submission fails after its [pending] entry was
    logged (the request is rejected, the status is not 2xx, the body is
    empty, the body is not JSON), the entry of that submission is in
    front of the log with status [error] and the message made of the
    MIME type and size label followed by the failure's message, the
    failure's message is the error shown, and the record store is as it
    was; for status 500 the logged message contains [500]. *)
Theorem processFile_failure_marks_error (pf : Platform) (amb : Ambient) :
  (forall sub out st thrown,
     readPayload pf out = inl thrown ->
     let st' := processFile_settle pf amb sub out st in
     entries st' = entries st
     /\ errorMsg st' = Some (thrownMessage thrown)
     /\ isLoading st' = false
     /\ requests st' = requests st
     /\ exists e,
          hd_error (uploadLog st') = Some e
          /\ id e = sub_logId sub /\ status e = error
          /\ message e
             = Some (sub_metaLabel sub ++ " | " ++ thrownMessage thrown)
          /\ forall e', In e' (tl (uploadLog st')) -> id e' <> sub_logId sub)
  /\ (forall t, readPayload pf (FetchRejected t) = inl t)
  /\ (forall r,
        resp_ok r = false ->
        readPayload pf (FetchResponse r)
        = inl (ThrownError
                 ("Webhook antwortete mit Status "
                  ++ JS.ofZ (resp_status r))))
  /\ (forall r,
        resp_ok r = true ->
        JS.includes "application/json"
          (JS.orElse (JS.nullish (resp_contentType r) "") "") = false ->
        resp_body r = inr "" ->
        readPayload pf (FetchResponse r)
        = inl (ThrownError "Server lieferte eine leere Antwort."))
  /\ (forall r text,
        resp_ok r = true -> resp_body r = inr text ->
        JSON_parse pf text = None ->
        exists msg, readPayload pf (FetchResponse r) = inl (ThrownError msg))
  /\ (forall net file st thrown,
        webhookUrl (settings st) <> "" ->
        (forall req, readPayload pf (net req) = inl thrown) ->
        let st' := processFile pf amb net file st in
        let meta :=
          JS.orElse (f_type file) "application/octet-stream" ++ " | "
          ++ formatFileSize (f_size file) in
        entries st' = entries st
        /\ errorMsg st' = Some (thrownMessage thrown)
        /\ isLoading st' = false
        /\ exists st1 sub e0 e,
             processFile_start amb file st = (st1, Some sub)
             /\ hd_error (uploadLog st1) = Some e0
             /\ id e0 = sub_logId sub /\ status e0 = pending
             /\ hd_error (uploadLog st') = Some e
             /\ id e = sub_logId sub /\ status e = error
             /\ message e = Some (meta ++ " | " ++ thrownMessage thrown)
             /\ forall e',
                  In e' (tl (uploadLog st')) -> id e' <> sub_logId sub)
  /\ (forall net file st,
        webhookUrl (settings st) <> "" ->
        (forall req, exists r, net req = FetchResponse r
                               /\ resp_status r = 500) ->
        let st' := processFile pf amb net file st in
        entries st' = entries st
        /\ exists e msg,
             hd_error (uploadLog st') = Some e /\ status e = error
             /\ message e = Some msg /\ errorMsg st' <> None
             /\ JS.includes "500" msg = true).
Proof.
  split; [exact (settle_failure pf amb)|].
  split; [exact (readPayload_rejected pf)|].
  split; [exact (readPayload_status pf)|].
  split; [exact (readPayload_empty pf)|].
  split; [exact (readPayload_unparseable pf)|].
  split; [exact (processFile_pending_to_error pf amb)|].
  intros net file st Hw Hnet st'.
  assert (Ht : forall req,
             readPayload pf (net req)
             = inl (ThrownError "Webhook antwortete mit Status 500")).
  { intros req. destruct (Hnet req) as (r & -> & Hr).
    rewrite readPayload_status; [rewrite Hr; reflexivity|].
    unfold resp_ok. rewrite Hr. reflexivity. }
  destruct (processFile_pending_to_error pf amb net file st _ Hw Ht)
    as (H1 & H2 & _ & st1 & sub & e0 & e & _ & _ & _ & _ & H5 & _ & H6 & H7 & _).
  split; [exact H1|]. eexists e, _. split; [exact H5|]. split; [exact H6|].
  split; [exact H7|]. split; [unfold st'; rewrite H2; discriminate|].
  rewrite <- app_assoc_s. apply includes_app. reflexivity.
Qed.

Lemma processFile_failure_marks_error_witness :
  let amb := {| dateNow := 1709287200000;
                isoStarted := "2024-03-01T10:00:00.000Z";
                isoCaptured := "2024-03-01T10:00:01.000Z";
                isoSettled := "2024-03-01T10:00:01.001Z";
                objectUrl := "blob:1" |} in
  let file := {| f_name := "a.jpg"; f_type := "image/jpeg";
                 f_size := 10240 |} in
  let net := fun _ : HttpRequest =>
    FetchResponse {| resp_status := 500; resp_contentType := None;
                     resp_body := inr "Internal Server Error" |} in
  let st := {| settings := {| webhookUrl := "https://x.com/hook";
                              theme := dark |};
               entries := []; isLoading := false; errorMsg := None;
               lastResult := None; lastPreviewUrl := None;
               uploadLog := []; editingEntry := None;
               requests := []; revoked := [] |} in
  let st' := processFile (browserAt 1 false) amb net file st in
  entries st' = entries st
  /\ exists e msg,
       hd_error (uploadLog st') = Some e /\ status e = error
       /\ message e = Some msg /\ errorMsg st' <> None
       /\ JS.includes "500" msg = true.
Proof.
  intros amb file net st.
  apply (proj2 (proj2 (proj2 (proj2 (proj2 (proj2
           (processFile_failure_marks_error (browserAt 1 false) amb)))))) net file st).
  - discriminate.
  - intros req. eexists. split; reflexivity.
Defined.

(** ** [validateWebhookUrl] *)

Lemma parse_scheme (pf : Platform) (url : string) (u : URL) :
  UrlParser.parse pf url = Some u <->
  exists sch rest,
    UrlParser.scanScheme
      (UrlParser.removeTabNewline
         (UrlParser.stripEnd (UrlParser.stripStart url))) = Some (sch, rest)
    /\ urlRestOk pf sch rest = true
    /\ protocol u = sch ++ ":".
Proof.
  unfold UrlParser.parse. split.
  - destruct (UrlParser.scanScheme _) as [[sch rest]|]; [|discriminate].
    destruct (urlRestOk pf sch rest) eqn:E; [|discriminate].
    intros [= <-]. exists sch, rest. auto.
  - intros (sch & rest & -> & -> & E). destruct u as [p]. simpl in E.
    rewrite E. reflexivity.
Qed.

(** Claim C8.  [validateWebhookUrl] is [true] exactly for a non-empty
    string that the URL parser accepts with protocol [http:] or [https:];
    any other protocol and any string the parser refuses give [false]:
    the empty string and [ftp://x] give [false], and [https://x.com/hook]
    gives [true] in a browser whose parser accepts what follows the
    scheme. *)
Theorem validateWebhookUrl_http_or_https (pf : Platform) :
  (forall url,
     validateWebhookUrl pf url = true <->
     url <> ""
     /\ exists u,
          UrlParser.parse pf url = Some u
          /\ (protocol u = "http:" \/ protocol u = "https:"))
  /\ (forall url u,
        UrlParser.parse pf url = Some u ->
        protocol u <> "http:" -> protocol u <> "https:" ->
        validateWebhookUrl pf url = false)
  /\ (forall url,
        UrlParser.parse pf url = None -> validateWebhookUrl pf url = false)
  /\ validateWebhookUrl pf "" = false
  /\ validateWebhookUrl pf "ftp://x" = false
  /\ (urlRestOk pf "https" "//x.com/hook" = true ->
      validateWebhookUrl pf "https://x.com/hook" = true).
Proof.
  split; [|split; [|split; [|split; [|split]]]].
  - intros url. unfold validateWebhookUrl, JS.truthy. split.
    + destruct (String.eqb_spec url "") as [|Hne]; [discriminate|].
      cbn [negb]. destruct (UrlParser.parse pf url) as [u|]; [|discriminate].
      intros H. split; [exact Hne|]. exists u. split; [reflexivity|].
      apply orb_true_iff in H as [H|H]; apply String.eqb_eq in H; auto.
    + intros (Hne & u & -> & H).
      destruct (String.eqb_spec url "") as [|_]; [contradiction|].
      cbn [negb]. apply orb_true_iff.
      destruct H as [H|H]; rewrite H; auto.
  - intros url u H H1 H2. unfold validateWebhookUrl. rewrite H.
    destruct (negb (JS.truthy url)); [reflexivity|].
    apply orb_false_iff. split; apply String.eqb_neq; auto.
  - intros url H. unfold validateWebhookUrl. rewrite H.
    destruct (negb (JS.truthy url)); reflexivity.
  - reflexivity.
  - assert (E : UrlParser.scanScheme
                 (UrlParser.removeTabNewline
                    (UrlParser.stripEnd (UrlParser.stripStart "ftp://x")))
               = Some ("ftp", "//x")) by reflexivity.
    unfold validateWebhookUrl, UrlParser.parse. rewrite E.
    destruct (urlRestOk pf "ftp" "//x"); reflexivity.
  - intros H.
    assert (E : UrlParser.scanScheme
                 (UrlParser.removeTabNewline
                    (UrlParser.stripEnd
                       (UrlParser.stripStart "https://x.com/hook")))
               = Some ("https", "//x.com/hook")) by reflexivity.
    unfold validateWebhookUrl, UrlParser.parse. rewrite E, H. reflexivity.
Qed.

Lemma validateWebhookUrl_http_or_https_witness :
  validateWebhookUrl (browserAt 1 false) "https://x.com/hook" = true.
Proof.
  apply (proj2 (proj2 (proj2 (proj2 (proj2
           (validateWebhookUrl_http_or_https (browserAt 1 false))))))).
  reflexivity.
Defined.

(** ** Editing a stored entry *)

Lemma NoDup_map_eq {A B : Type} (f : A -> B) (l : list A) (x y : A) :
  NoDup (map f l) -> In x l -> In y l -> f x = f y -> x = y.
Proof.
  induction l as [|a l IH]; simpl; [tauto|].
  intros H Hx Hy E. inversion H as [|? ? Ha Hl]; subst.
  destruct Hx as [->|Hx], Hy as [->|Hy]; auto.
  - exfalso. apply Ha. rewrite E. apply in_map, Hy.
  - exfalso. apply Ha. rewrite <- E. apply in_map, Hx.
Qed.

(** A blocked save. *)
Lemma handleSave_blocked (pf : Platform) (entry : Entry) (draft : Draft) :
  d_invoiceDate draft <> "" ->
  parseGermanDate pf (Some (d_invoiceDate draft)) = None ->
  handleSave pf entry draft = inl dateErrorMessage.
Proof.
  intros Hne Hp. unfold handleSave.
  assert (T : JS.truthy (d_invoiceDate draft) = true).
  { unfold JS.truthy. destruct (String.eqb_spec (d_invoiceDate draft) "");
      [contradiction|reflexivity]. }
  rewrite T, Hp. reflexivity.
Qed.





(* ================================================================== *)
(** * Part III: further properties of the code *)
(* ================================================================== *)

(** ** Dates *)

(** X1.  In a browser at or east of Greenwich, formatting a calendar date
    written [YYYY-MM-DD] and parsing the result gives the date back. *)
Theorem roundtrip_east_of_greenwich (pf : Platform) (d : string) :
  eastOfGreenwich pf -> isIsoDate d ->
  parseGermanDate pf (Some (formatDate (Some d))) = Some d.
Proof. apply formatDate_roundtrip_east. Qed.

Lemma roundtrip_east_of_greenwich_witness :
  parseGermanDate (browserAt 2 false)
    (Some (formatDate (Some "2024-02-29"))) = Some "2024-02-29".
Proof.
  apply roundtrip_east_of_greenwich.
  - intros t. unfold EcmaDate.msPerDay. cbn. lia.
  - exists "2024", "02", "29". repeat split; evaluate.
Defined.

(** X2.  In every browser, whatever its time zone and its [Date] parser,
    a string that [parseGermanDate] accepts is [day.month.year] in digits
    (one or two, one or two, two to four), names a day of the calendar,
    and the result is that day with day and month padded to two digits
    and a two-digit year prefixed by 20. *)
Theorem accepted_date_is_calendar_day (pf : Platform) (s r : string) :
  parseGermanDate pf (Some s) = Some r ->
  exists day month year,
    germanShape s day month year /\ denotesDate day month year
    /\ r = isoOf day month year.
Proof.
  intros H.
  destruct (parseGermanDate_sound pf s r H) as (d & m & y & M & E & V).
  exists d, m, y. auto.
Qed.

Lemma accepted_date_is_calendar_day_witness :
  exists day month year,
    germanShape "1.3.24" day month year /\ denotesDate day month year
    /\ "2024-03-01" = isoOf day month year.
Proof.
  apply (accepted_date_is_calendar_day (browserAt 1 false) "1.3.24").
  reflexivity.
Defined.

Lemma isoFields_short_year (year rest : string) :
  String.length year = 3%nat -> JS.allDigits year = true ->
  JSDate.isoFields (year ++ "-" ++ rest) = None.
Proof.
  intros E3 D3. unfold JSDate.isoFields.
  destruct year as [|a [|b [|c [|e r]]]]; try discriminate E3.
  simpl in D3. rewrite !andb_true_iff in D3. destruct D3 as (Ha & Hb & Hc & _).
  simpl. rewrite Ha, Hb, Hc. reflexivity.
Qed.

Lemma denotesDate_dec (day month year : string) :
  {denotesDate day month year} + {~ denotesDate day month year}.
Proof.
  unfold denotesDate, validDate.
  destruct (Z_le_dec 1 (JS.parseInt month)),
    (Z_le_dec (JS.parseInt month) 12),
    (Z_le_dec 1 (JS.parseInt day)),
    (Z_le_dec (JS.parseInt day)
       (EcmaDate.daysInMonth (JS.parseInt (expandYear year))
          (JS.parseInt month)));
    try (left; lia); right; lia.
Qed.

(** With a [Date] parser that refuses a three-digit year, the year of an
    accepted string has two or four digits. *)
Lemma accepted_year_length (pf : Platform) (s day month year : string) :
  refusesShortYears pf ->
  germanShape s day month year ->
  parseGermanDate pf (Some s) <> None ->
  String.length year = 2%nat \/ String.length year = 4%nat.
Proof.
  intros Ho M H.
  destruct (Nat.eq_dec (String.length year) 3) as [E3|];
    [|destruct M as (_ & _ & _ & _ & _ & _ & L); lia].
  exfalso. apply H.
  rewrite (parseGermanDate_matched pf s day month year M). cbv zeta.
  pose proof M as (_ & D1 & D2 & D3 & L1 & L2 & _).
  destruct (padStart_digitRun day D1 L1) as [Rd _].
  destruct (padStart_digitRun month D2 L2) as [Rm _].
  assert (N : JSDate.parse pf
                (expandYear year ++ "-" ++ JS.padStart 2 "0" month ++ "-"
                 ++ JS.padStart 2 "0" day ++ "T00:00:00Z") = None).
  { unfold JSDate.parse, expandYear. rewrite E3. cbn [Nat.eqb].
    rewrite (isoFields_short_year year _ E3 D3).
    apply Ho; auto. split; auto. }
  rewrite N. reflexivity.
Qed.

(** X3.  In a browser at or east of Greenwich whose [Date] parser refuses
    a date and time written with a three-digit year, [parseGermanDate]
    accepts exactly the strings [day.month.year] with a year of two or
    four digits that name a day of the calendar. *)
Theorem accepts_exactly_calendar_days_east (pf : Platform) (s r : string) :
  eastOfGreenwich pf -> refusesShortYears pf ->
  (parseGermanDate pf (Some s) = Some r <->
   exists day month year,
     germanShape s day month year
     /\ (String.length year = 2%nat \/ String.length year = 4%nat)
     /\ denotesDate day month year
     /\ r = isoOf day month year).
Proof.
  intros He Ho. split.
  - intros H.
    destruct (parseGermanDate_sound pf s r H) as (d & m & y & M & -> & V).
    exists d, m, y. split; [exact M|]. split; [|split; [exact V|reflexivity]].
    apply (accepted_year_length pf s d m y Ho M). congruence.
  - intros (d & m & y & M & L & V & ->).
    apply parseGermanDate_east; auto.
    destruct L as [L|L]; rewrite L; discriminate.
Qed.

Lemma accepts_exactly_calendar_days_east_witness :
  parseGermanDate (browserAt 1 false) (Some "29.2.24") = Some "2024-02-29".
Proof.
  apply (accepts_exactly_calendar_days_east (browserAt 1 false)).
  - intros t. unfold EcmaDate.msPerDay. cbn. lia.
  - intros y m d _ _ _. reflexivity.
  - exists "29", "2", "24". repeat split; evaluate.
Defined.

(** X4.  The answer of [parseGermanDate] does not depend on whether the
    [Date] parser carries a day beyond the end of the month into the next
    month or answers an invalid date. *)
Theorem parseGermanDate_same_in_lenient_and_strict (pf : Platform)
    (b : bool) (x : option string) :
  parseGermanDate (withLenientDay b pf) x = parseGermanDate pf x.
Proof.
  destruct x as [s|]; [|reflexivity].
  destruct (matchGermanDate s) as [[[day month] year]|] eqn:M.
  - apply matchGermanDate_spec in M.
    destruct (denotesDate_dec day month year) as [V|NV].
    + destruct (Nat.eq_dec (String.length year) 3) as [E3|N3].
      * rewrite !(parseGermanDate_matched _ s day month year M).
        pose proof M as (_ & _ & _ & D3 & _).
        unfold JSDate.parse, expandYear. rewrite E3. cbn [Nat.eqb].
        rewrite (isoFields_short_year year _ E3 D3). reflexivity.
      * rewrite !(parseGermanDate_matched _ s day month year M).
        rewrite !(built_date _ s day month year M N3 V). reflexivity.
    + rewrite !(parseGermanDate_rejects_invalid _ s day month year M NV).
      reflexivity.
  - unfold parseGermanDate. rewrite M.
    destruct (JS.truthy s); reflexivity.
Qed.

(** X5.  In every browser, a ten-character result of [parseGermanDate] is
    shown by [formatDate] as a string that [parseGermanDate] accepts again,
    with the same result. *)
Theorem accepted_date_parses_again (pf : Platform) (s r : string) :
  parseGermanDate pf (Some s) = Some r -> String.length r = 10%nat ->
  parseGermanDate pf (Some (formatDate (Some r))) = Some r.
Proof.
  intros H L.
  destruct (parseGermanDate_sound pf s r H) as (d & m & y & M & E & V).
  pose proof M as (_ & D1 & D2 & D3 & L1 & L2 & L3).
  destruct (padStart_digitRun d D1 L1) as [Rd Pd].
  destruct (padStart_digitRun m D2 L2) as [Rm Pm].
  assert (N3 : String.length y <> 3%nat).
  { intros E3. subst r. unfold isoOf, expandYear in L. rewrite E3 in L.
    cbn [Nat.eqb] in L. rewrite !length_app_s in L.
    destruct Rd as [Ld _], Rm as [Lm _]. rewrite E3, Ld, Lm in L.
    simpl in L. lia. }
  pose proof (expandYear_digitRun y D3 L3 N3) as Ry.
  destruct (formatDate_isoDate _ _ _ Ry Rm Rd) as (F & M' & I & Ey).
  fold (isoOf d m y) in F. rewrite <- E in F. rewrite F.
  rewrite (parseGermanDate_matched pf _ _ _ _ M').
  rewrite (parseGermanDate_matched pf s d m y M) in H.
  unfold isoOf in I. rewrite Ey in I |- *.
  destruct Rd as [Ld Dd], Rm as [Lm Dm].
  rewrite !(padStart_full _ Ld), !(padStart_full _ Lm) in *.
  cbv zeta in H |- *.
  match type of H with (if ?c then _ else _) = _ => destruct c end;
    [discriminate|].
  unfold isoOf. rewrite Ey, !(padStart_full _ Ld), !(padStart_full _ Lm).
  exact H.
Qed.

Lemma accepted_date_parses_again_witness :
  parseGermanDate (browserAt 1 false)
    (Some (formatDate (Some "2024-03-01"))) = Some "2024-03-01".
Proof.
  apply (accepted_date_parses_again (browserAt 1 false) "1.3.24");
    reflexivity.
Defined.

Lemma app_inv_head_s (a x y : string) : a ++ x = a ++ y -> x = y.
Proof. induction a as [|c a IH]; simpl; [auto|]. intros [= H]. auto. Qed.

Lemma app_eq_self (x t : string) : x ++ t = t -> x = "".
Proof.
  intros H. apply (f_equal String.length) in H. rewrite length_app_s in H.
  destruct x; [reflexivity|]. simpl in H. lia.
Qed.

Lemma hd_split_empty (c : ascii) (s : string) :
  hd "" (JS.split c s) = "" <->
  match s with
  | EmptyString => True
  | String a _ => a = c
  end.
Proof.
  destruct s as [|a r]; simpl; [tauto|].
  destruct (Ascii.eqb_spec a c) as [->|Hne]; simpl; [tauto|].
  rewrite (split_hd_tl c r). simpl. split; [discriminate|contradiction].
Qed.

Lemma hd_split_cons (c a : ascii) (r : string) :
  a <> c ->
  hd "" (JS.split c (String a r)) = String a (hd "" (JS.split c r)).
Proof.
  intros Hne. simpl. destruct (Ascii.eqb_spec a c); [contradiction|].
  rewrite (split_hd_tl c r). reflexivity.
Qed.

(** X6.  For a string that starts with an ISO date, [formatDate] gives
    exactly [DD.MM.YYYY] if and only if the date is followed by nothing,
    by [T] (a time part) or by a hyphen. *)
Theorem formatDate_clean_iff (y m d rest : string) :
  digitRun 4 y -> digitRun 2 m -> digitRun 2 d ->
  (formatDate (Some (y ++ "-" ++ m ++ "-" ++ d ++ rest))
   = d ++ "." ++ m ++ "." ++ y
   <->
   match rest with
   | EmptyString => True
   | String c _ => c = "T"%char \/ c = "-"%char
   end).
Proof.
  intros Hy Hm Hd.
  destruct (formatDate_parts y m d rest Hy Hm Hd) as [_ HF].
  cbv zeta in HF. rewrite HF. clear HF.
  set (x := hd "" (JS.split "-" (hd "" (JS.split "T" rest)))).
  assert (E : (d ++ x) ++ "." ++ m ++ "." ++ y = d ++ "." ++ m ++ "." ++ y
              <-> x = "").
  { split.
    - rewrite app_assoc_s. intros H. apply app_inv_head_s in H.
      apply app_eq_self in H. exact H.
    - intros ->. rewrite app_nil_r_s. reflexivity. }
  rewrite E. unfold x. rewrite hd_split_empty.
  destruct rest as [|c r]; [simpl; tauto|].
  destruct (Ascii.eqb_spec c "T") as [->|HT].
  - simpl. tauto.
  - rewrite (hd_split_cons "T" c r HT). split; [auto|].
    intros [H|H]; [contradiction|exact H].
Qed.

Lemma formatDate_clean_iff_witness :
  formatDate (Some "2024-03-01T10:00:01.000Z") = "01.03.2024".
Proof.
  apply (formatDate_clean_iff "2024" "03" "01" "T10:00:01.000Z");
    try (split; reflexivity).
  left. reflexivity.
Defined.

(** ** The CSV export is unambiguous *)

Lemma doubled_delimited (v1 v2 r1 r2 : string) :
  noLeadingQuote r1 -> noLeadingQuote r2 ->
  doubled v1 ++ String dquote r1 = doubled v2 ++ String dquote r2 ->
  v1 = v2 /\ r1 = r2.
Proof.
  intros N1 N2. revert v2.
  induction v1 as [|c1 v1 IH]; intros [|c2 v2]; simpl.
  - intros [= H]. auto.
  - destruct (Ascii.eqb_spec c2 dquote) as [->|Hc]; simpl; intros [= H].
    + subst r1. simpl in N1. contradiction.
    + congruence.
  - destruct (Ascii.eqb_spec c1 dquote) as [->|Hc]; simpl; intros [= H].
    + subst r2. simpl in N2. contradiction.
    + congruence.
  - destruct (Ascii.eqb_spec c1 dquote) as [->|Hc1];
      destruct (Ascii.eqb_spec c2 dquote) as [->|Hc2]; simpl.
    + intros [= H]. destruct (IH _ H) as [-> ->]. auto.
    + intros [= H _]. congruence.
    + intros [= H _]. congruence.
    + intros [= -> H]. destruct (IH _ H) as [-> ->]. auto.
Qed.

Lemma quotedCell_delimited (v1 v2 r1 r2 : string) :
  noLeadingQuote r1 -> noLeadingQuote r2 ->
  quotedCell v1 ++ r1 = quotedCell v2 ++ r2 -> v1 = v2 /\ r1 = r2.
Proof.
  intros N1 N2. unfold quotedCell, dq. rewrite ?app_assoc_s.
  cbn [append]. rewrite ?app_assoc_s. cbn [append].
  intros [= H]. apply (doubled_delimited _ _ _ _ N1 N2 H).
Qed.

Lemma cons_inv_s (c : ascii) (x y : string) :
  String c x = String c y -> x = y.
Proof. intros [= H]. exact H. Qed.

Lemma entryLines_noLeadingQuote (es : list Entry) :
  noLeadingQuote (entryLines es).
Proof. destruct es; simpl; [exact I|discriminate]. Qed.

Lemma entryLine_cells (e : Entry) (t : string) :
  entryLine e ++ t
  = quotedCell (vendor e)
    ++ String ";" (quotedCell (invoiceNumber e)
    ++ String ";" (quotedCell (formatDate (invoiceDate e))
    ++ String ";" (quotedCell (JS.replaceFirst "." "," (totalAmount e))
    ++ t))).
Proof.
  unfold entryLine. rewrite ?app_assoc_s. cbn [append].
  rewrite ?app_assoc_s. cbn [append]. rewrite ?app_assoc_s. reflexivity.
Qed.

Lemma csvRow_cells (e : Entry) :
  csvRow e = [vendor e; invoiceNumber e; formatDate (invoiceDate e);
              JS.replaceFirst "." "," (totalAmount e)].
Proof. unfold csvRow. rewrite !orElse_empty. reflexivity. Qed.

Lemma entryLines_injective (es1 es2 : list Entry) :
  entryLines es1 = entryLines es2 -> map csvRow es1 = map csvRow es2.
Proof.
  revert es2. induction es1 as [|e1 r1 IH]; intros [|e2 r2]; auto.
  - intros H. apply (f_equal String.length) in H. discriminate H.
  - intros H. apply (f_equal String.length) in H. discriminate H.
  - change (entryLines (e1 :: r1))
      with (newline ++ entryLine e1 ++ entryLines r1).
    change (entryLines (e2 :: r2))
      with (newline ++ entryLine e2 ++ entryLines r2).
    intros H. apply app_inv_head_s in H. cbn [map].
  rewrite !entryLine_cells in H.
  apply quotedCell_delimited in H as [E1 H]; try discriminate.
  apply cons_inv_s in H.
  apply quotedCell_delimited in H as [E2 H]; try discriminate.
  apply cons_inv_s in H.
  apply quotedCell_delimited in H as [E3 H]; try discriminate.
  apply cons_inv_s in H.
  apply quotedCell_delimited in H as [E4 H];
    try apply entryLines_noLeadingQuote.
  rewrite !csvRow_cells, E1, E2, E3, E4, (IH _ H). reflexivity.
Qed.

Lemma entriesToCSV_lines (es : list Entry) :
  entriesToCSV es = headerLine ++ entryLines es.
Proof.
  unfold entriesToCSV. cbv zeta. cbn [map].
  rewrite csvHeader_line. apply join_lines.
Qed.

(** X7.  The export loses nothing of what it writes: two record stores
    with the same CSV text have the same rows (vendor, invoice number,
    formatted date, amount with comma), cell by cell and in number,
    whatever the fields contain - double quotes, semicolons or line
    feeds. *)
Theorem entriesToCSV_unambiguous (es1 es2 : list Entry) :
  entriesToCSV es1 = entriesToCSV es2 ->
  map csvRow es1 = map csvRow es2
  /\ List.length es1 = List.length es2
  /\ map vendor es1 = map vendor es2
  /\ map invoiceNumber es1 = map invoiceNumber es2.
Proof.
  rewrite !entriesToCSV_lines. intros H. apply app_inv_head_s in H.
  apply entryLines_injective in H.
  assert (L : List.length es1 = List.length es2).
  { rewrite <- (length_map csvRow es1), H. apply length_map. }
  split; [exact H|]. split; [exact L|].
  clear L. revert es2 H.
  induction es1 as [|e1 r1 IH]; intros [|e2 r2]; simpl;
    try discriminate; auto.
  rewrite !csvRow_cells. intros [= E1 E2 _ _ H].
  destruct (IH _ H) as [-> ->]. rewrite E1, E2. auto.
Qed.

Lemma entriesToCSV_unambiguous_witness :
  let e := {| vendor := "ACME; GmbH"; invoiceNumber := "INV-1";
              invoiceDate := Some "2024-03-01"; totalAmount := "19.99";
              imageName := "a.jpg"; capturedAt := "t1" |} in
  let e' := {| vendor := "ACME; GmbH"; invoiceNumber := "INV-1";
               invoiceDate := Some "2024-03-01T08:00:00Z";
               totalAmount := "19,99";
               imageName := "b.pdf"; capturedAt := "t2" |} in
  map csvRow [e] = map csvRow [e']
  /\ List.length [e] = List.length [e']
  /\ map vendor [e] = map vendor [e']
  /\ map invoiceNumber [e] = map invoiceNumber [e'].
Proof.
  intros e e'. apply (entriesToCSV_unambiguous [e] [e']). reflexivity.
Defined.

(** ** File sizes *)

Lemma scaleSize_spec (bytes : Z) (rounds : nat) (den k den' k' : Z) :
  0 < den -> 0 <= k -> k + Z.of_nat rounds = 4 -> den <= bytes ->
  scaleSize rounds bytes den k = (den', k') ->
  exists j,
    0 <= j /\ k' = k + j /\ den' = den * 1024 ^ j /\ k' <= 4
    /\ den' <= bytes /\ (k' < 4 -> bytes < 1024 * den').
Proof.
  revert den k. induction rounds as [|n IH]; intros den k Hd Hk Hr Hb.
  - simpl. intros [= <- <-]. exists 0. rewrite Z.pow_0_r. lia.
  - cbn [scaleSize].
    change (Z.of_nat (List.length units) - 1) with 4.
    destruct (Z.leb_spec (1024 * den) bytes) as [H1|H1];
      destruct (Z.ltb_spec k 4) as [H2|H2]; cbn [andb].
    + intros E. apply IH in E; try lia.
      destruct E as (j & Hj & -> & -> & H4 & H5 & H6).
      exists (j + 1). rewrite Z.pow_add_r by lia. lia.
    + lia.
    + intros [= <- <-]. exists 0. rewrite Z.pow_0_r. lia.
    + lia.
Qed.

Lemma round_half_up (num den scale : Z) :
  0 < den -> 0 <= num -> 0 < scale ->
  let n := (2 * scale * num + den) / (2 * den) in
  (2 * n - 1) * den <= 2 * scale * num < (2 * n + 1) * den.
Proof.
  intros Hd Hn Hs n.
  pose proof (Z.div_mod (2 * scale * num + den) (2 * den) ltac:(lia)) as E.
  pose proof (Z.mod_pos_bound (2 * scale * num + den) (2 * den) ltac:(lia))
    as B.
  fold n in E. nia.
Qed.

(** X8.  [formatFileSize] answers [0 B] for a size that is not positive
    and the size itself followed by [B] below 1024.  For a positive size
    below 2^53, as every file has, it picks the unit [k] (0 for B up to 4 for TB) with
    [1024^k <= bytes], and [bytes < 1024^(k+1)] unless the unit is TB;
    it prints [bytes / 1024^k] rounded to the nearest value, half up:
    to one decimal when the unit is not B and the value is below 10, to
    an integer otherwise. *)
Theorem formatFileSize_label :
  (forall bytes, bytes <= 0 -> formatFileSize bytes = "0 B")
  /\ (forall bytes,
        0 < bytes < 1024 -> formatFileSize bytes = JS.ofZ bytes ++ " B")
  /\ (forall bytes,
        0 < bytes < 2 ^ 53 ->
        exists k n,
          0 <= k <= 4 /\ 1024 ^ k <= bytes
          /\ (k < 4 -> bytes < 1024 ^ (k + 1))
          /\ if (10 * 1024 ^ k <=? bytes) || (k =? 0)
             then (2 * n - 1) * 1024 ^ k <= 2 * bytes
                                         < (2 * n + 1) * 1024 ^ k
                  /\ formatFileSize bytes
                     = JS.ofZ n ++ " " ++ nth (Z.to_nat k) units ""
             else (2 * n - 1) * 1024 ^ k <= 20 * bytes
                                         < (2 * n + 1) * 1024 ^ k
                  /\ formatFileSize bytes
                     = JS.ofZ (n / 10) ++ "." ++ JS.ofZ (n mod 10) ++ " "
                       ++ nth (Z.to_nat k) units "").
Proof.
  split; [|split].
  - intros bytes H. unfold formatFileSize.
    destruct (Z.leb_spec bytes 0); [reflexivity|lia].
  - intros bytes [H0 H1]. unfold formatFileSize.
    destruct (Z.leb_spec bytes 0); [lia|].
    cbn [List.length units Nat.sub scaleSize].
    destruct (Z.leb_spec (1024 * 1) bytes); [lia|]. cbn [andb].
    rewrite orb_true_r. unfold toFixed. cbn [Z.eqb].
    replace ((2 * bytes + 1) / (2 * 1)) with bytes; [reflexivity|].
    apply (Z.div_unique _ _ bytes 1); lia.
  - intros bytes [H0 _]. unfold formatFileSize.
    destruct (Z.leb_spec bytes 0); [lia|].
    destruct (scaleSize (List.length units - 1) bytes 1 0) as [den k] eqn:E.
    apply scaleSize_spec in E; try (cbn; lia).
    destruct E as (j & Hj & -> & -> & H4 & H5 & H6).
    rewrite Z.mul_1_l in *. cbn [Z.add] in *.
    assert (Hp : 0 < 1024 ^ j) by (apply Z.pow_pos_nonneg; lia).
    destruct ((10 * 1024 ^ j <=? bytes) || (j =? 0)) eqn:C.
    + exists j, ((2 * bytes + 1024 ^ j) / (2 * 1024 ^ j)).
      split; [lia|]. split; [lia|].
      split; [rewrite Z.pow_add_r, Z.pow_1_r by lia; lia|].
      rewrite C. split; [|reflexivity].
      pose proof (round_half_up bytes (1024 ^ j) 1 Hp ltac:(lia) ltac:(lia))
        as R.
      cbv zeta in R. replace (2 * 1 * bytes) with (2 * bytes) in R by lia.
      exact R.
    + exists j, ((20 * bytes + 1024 ^ j) / (2 * 1024 ^ j)).
      split; [lia|]. split; [lia|].
      split; [rewrite Z.pow_add_r, Z.pow_1_r by lia; lia|].
      rewrite C.
      split; [|unfold toFixed; change (1 =? 0) with false; cbv iota;
               rewrite ?app_assoc_s; reflexivity].
      pose proof (round_half_up bytes (1024 ^ j) 10 Hp ltac:(lia) ltac:(lia))
        as R.
      cbv zeta in R. replace (2 * 10 * bytes) with (20 * bytes) in R by lia.
      exact R.
Qed.

Lemma formatFileSize_label_witness :
  formatFileSize 512 = JS.ofZ 512 ++ " B"
  /\ exists k n,
       0 <= k <= 4 /\ 1024 ^ k <= 1536
       /\ (k < 4 -> 1536 < 1024 ^ (k + 1))
       /\ if (10 * 1024 ^ k <=? 1536) || (k =? 0)
          then (2 * n - 1) * 1024 ^ k <= 2 * 1536 < (2 * n + 1) * 1024 ^ k
               /\ formatFileSize 1536
                  = JS.ofZ n ++ " " ++ nth (Z.to_nat k) units ""
          else (2 * n - 1) * 1024 ^ k <= 20 * 1536 < (2 * n + 1) * 1024 ^ k
               /\ formatFileSize 1536
                  = JS.ofZ (n / 10) ++ "." ++ JS.ofZ (n mod 10) ++ " "
                    ++ nth (Z.to_nat k) units "".
Proof.
  split.
  - apply (proj1 (proj2 formatFileSize_label)). lia.
  - apply (proj2 (proj2 formatFileSize_label)). lia.
Defined.

(** ** Looking up, repeating and removing log entries *)

Lemma findById_filter_other (i j : string) (l : list UploadLogEntry) :
  j <> i ->
  findById j (filter (fun item => notId i (id item)) l) = findById j l.
Proof.
  intros Hne. unfold findById.
  induction l as [|e l IH]; simpl; [reflexivity|].
  unfold notId at 1.
  destruct (String.eqb_spec (id e) i) as [Ei|Ei]; cbn [negb].
  - destruct (String.eqb_spec (id e) j) as [Ej|Ej]; [congruence|exact IH].
  - simpl. destruct (String.eqb_spec (id e) j); [reflexivity|exact IH].
Qed.

Lemma findById_filter_same (i : string) (l : list UploadLogEntry) :
  findById i (filter (fun item => notId i (id item)) l) = None.
Proof.
  unfold findById. induction l as [|e l IH]; simpl; [reflexivity|].
  unfold notId at 1.
  destruct (String.eqb_spec (id e) i) as [Ei|Ei]; cbn [negb]; [exact IH|].
  simpl. destruct (String.eqb_spec (id e) i); [contradiction|exact IH].
Qed.

Lemma filter_absent (i : string) (l : list UploadLogEntry) :
  findById i l = None -> filter (fun item => notId i (id item)) l = l.
Proof.
  unfold findById. induction l as [|e l IH]; simpl; [reflexivity|].
  unfold notId at 1.
  destruct (String.eqb_spec (id e) i) as [Ei|Ei]; [discriminate|].
  intros H. cbn [negb]. rewrite (IH H). reflexivity.
Qed.

Lemma firstn_short {A : Type} (n : nat) (l : list A) :
  (List.length l <= n)%nat -> firstn n l = l.
Proof. apply firstn_all2. Qed.

Lemma filter_present_shorter (i : string) (l : list UploadLogEntry) :
  findById i l <> None ->
  (List.length (filter (fun item => notId i (id item)) l)
   < List.length l)%nat.
Proof.
  unfold findById. induction l as [|e l IH]; simpl; [congruence|].
  unfold notId at 1.
  destruct (String.eqb_spec (id e) i) as [Ei|Ei]; cbn [negb]; intros H.
  - pose proof (filter_length_le (fun item => notId i (id item)) l). lia.
  - simpl. apply IH in H. lia.
Qed.

Lemma findById_upsert_other (now : string) (u : LogUpdate)
    (prev : list UploadLogEntry) (j : string) :
  j <> u_id u ->
  (List.length (filter (fun item => notId (u_id u) (id item)) prev)
   <= 4)%nat ->
  findById j (updateUploadLog now u prev) = findById j prev.
Proof.
  intros Hne Hl. rewrite updateUploadLog_cons, (firstn_short 4 _ Hl).
  unfold findById at 1. cbn [find mergedEntry id].
  destruct (String.eqb_spec (u_id u) j) as [E|_]; [congruence|].
  apply (findById_filter_other (u_id u) j prev Hne).
Qed.

(** X9.  Looking up an id right after its upsert finds the merged entry.
    Every other id is found as before, as long as nothing is pushed out:
    the log had at most four entries, or at most five with the upserted
    id among them. *)
Theorem upsert_then_find (now : string) (u : LogUpdate)
    (prev : list UploadLogEntry) :
  findById (u_id u) (updateUploadLog now u prev)
  = Some (mergedEntry now u (findById (u_id u) prev))
  /\ (forall j,
        j <> u_id u -> (List.length prev <= 4)%nat ->
        findById j (updateUploadLog now u prev) = findById j prev)
  /\ (forall j,
        j <> u_id u -> (List.length prev <= 5)%nat ->
        findById (u_id u) prev <> None ->
        findById j (updateUploadLog now u prev) = findById j prev).
Proof.
  split; [|split].
  - rewrite updateUploadLog_cons. unfold findById at 1.
    cbn [find mergedEntry id]. rewrite String.eqb_refl. reflexivity.
  - intros j Hne Hl. apply findById_upsert_other; auto.
    pose proof (filter_length_le
                  (fun item => notId (u_id u) (id item)) prev). lia.
  - intros j Hne Hl Hp. apply findById_upsert_other; auto.
    pose proof (filter_present_shorter (u_id u) prev Hp). lia.
Qed.

Lemma upsert_then_find_witness :
  let prev := updateUploadLog "t1" (namesFile "b" "b.pdf") [] in
  findById "b" (updateUploadLog "t2" (namesFile "a" "a.jpg") prev)
  = findById "b" prev.
Proof.
  intros prev.
  apply (proj1 (proj2 (upsert_then_find "t2" (namesFile "a" "a.jpg") prev))).
  - discriminate.
  - simpl. lia.
Defined.

Lemma filter_all {A : Type} (p : A -> bool) (l : list A) :
  (forall x, In x l -> p x = true) -> filter p l = l.
Proof.
  induction l as [|a l IH]; simpl; intros H; [reflexivity|].
  rewrite (H a) by auto. rewrite IH; auto.
Qed.

Lemma mergedEntry_again (now1 now2 : string) (u : LogUpdate)
    (existing : option UploadLogEntry) :
  mergedEntry now2 u (Some (mergedEntry now1 u existing))
  = mergedEntry now1 u existing.
Proof.
  unfold mergedEntry, pick.
  destruct existing as [e|];
    destruct (u_fileName u), (u_displayName u), (u_status u),
      (u_timestamp u), (u_message u); reflexivity.
Qed.

(** X10.  Repeating an upsert changes nothing, whatever the time of the
    repetition: the log after the same update twice is the log after it
    once. *)
Theorem upsert_twice (now1 now2 : string) (u : LogUpdate)
    (prev : list UploadLogEntry) :
  updateUploadLog now2 u (updateUploadLog now1 u prev)
  = updateUploadLog now1 u prev.
Proof.
  rewrite (updateUploadLog_cons now2).
  assert (F : findById (u_id u) (updateUploadLog now1 u prev)
              = Some (mergedEntry now1 u (findById (u_id u) prev))).
  { rewrite updateUploadLog_cons. unfold findById at 1.
    cbn [find mergedEntry id]. rewrite String.eqb_refl. reflexivity. }
  rewrite F, mergedEntry_again, updateUploadLog_cons. f_equal.
  cbn [filter mergedEntry id]. unfold notId at 1.
  rewrite String.eqb_refl. cbn [negb].
  rewrite filter_all.
  - rewrite firstn_firstn. reflexivity.
  - intros x Hx. apply in_firstn in Hx. apply filter_In in Hx as [_ Hx].
    exact Hx.
Qed.

(** X11.  Removing an id that is not in the log leaves the log as it is;
    after a removal the id is not found and every other id is found as
    before; removing an id right after its upsert leaves the first four of
    the log without it. *)
Theorem remove_log_entry (i : string) (prev : list UploadLogEntry) :
  (findById i prev = None -> handleRemoveUploadLog i prev = prev)
  /\ findById i (handleRemoveUploadLog i prev) = None
  /\ (forall j, j <> i ->
        findById j (handleRemoveUploadLog i prev) = findById j prev)
  /\ (forall now u,
        u_id u = i ->
        handleRemoveUploadLog i (updateUploadLog now u prev)
        = firstn 4 (handleRemoveUploadLog i prev)).
Proof.
  split; [|split; [|split]].
  - apply filter_absent.
  - apply findById_filter_same.
  - intros j Hne. apply (findById_filter_other i j prev Hne).
  - intros now u <-. rewrite updateUploadLog_cons.
    unfold handleRemoveUploadLog. cbn [filter mergedEntry id].
    rewrite String.eqb_refl. cbn [negb].
    apply filter_all.
    intros x Hx. apply in_firstn in Hx. apply filter_In in Hx as [_ Hx].
    exact Hx.
Qed.

Lemma remove_log_entry_witness :
  handleRemoveUploadLog "x"
    (updateUploadLog "t1" (namesFile "b" "b.pdf") [])
  = updateUploadLog "t1" (namesFile "b" "b.pdf") [].
Proof.
  apply (proj1 (remove_log_entry "x" _)). reflexivity.
Defined.

(** X12.  A rename changes display names only, and only of the entries
    with the given id: every entry keeps its place, id, file name, status,
    time stamp and message; an entry with another id is unchanged; a
    display name that changes becomes the trimmed answer of the prompt,
    which is not empty.  When the id is not in the log, the user cancels,
    or the answer is blank, the log is as it was. *)
Theorem rename_changes_display_name_only
    (prompt : string -> option string) (i : string)
    (prev : list UploadLogEntry) :
  (findById i prev = None -> handleRenameUploadLog prompt i prev = prev)
  /\ ((forall text, prompt text = None) ->
      handleRenameUploadLog prompt i prev = prev)
  /\ ((forall text answer, prompt text = Some answer -> JS.trim answer = "")
      -> handleRenameUploadLog prompt i prev = prev)
  /\ forall n e,
       nth_error prev n = Some e ->
       exists e',
         nth_error (handleRenameUploadLog prompt i prev) n = Some e'
         /\ id e' = id e /\ fileName e' = fileName e
         /\ status e' = status e /\ timestamp e' = timestamp e
         /\ message e' = message e
         /\ (id e <> i -> e' = e)
         /\ (displayName e' = displayName e
             \/ exists text answer,
                  prompt text = Some answer
                  /\ displayName e' = JS.trim answer
                  /\ JS.trim answer <> "").
Proof.
  unfold handleRenameUploadLog.
  split; [|split; [|split]].
  - intros ->. reflexivity.
  - intros Hc. destruct (findById i prev); [|reflexivity].
    rewrite Hc. reflexivity.
  - intros Hb. destruct (findById i prev) as [target|]; [|reflexivity].
    destruct (prompt _) as [answer|] eqn:P; [|reflexivity].
    rewrite (Hb _ _ P). reflexivity.
  - intros n e He.
    destruct (findById i prev) as [target|];
      [|exists e; repeat split; auto].
    destruct (prompt _) as [answer|] eqn:P;
      [|exists e; repeat split; auto].
    destruct (JS.truthy (JS.trim answer)) eqn:T; cbn [negb];
      [|exists e; repeat split; auto].
    rewrite nth_error_map, He. cbn [option_map].
    eexists. split; [reflexivity|].
    destruct (String.eqb_spec (id e) i) as [E|E]; cbn.
    + repeat split; auto; [contradiction|].
      right. eexists _, answer. split; [exact P|]. split; [reflexivity|].
      intros Z. rewrite Z in T. discriminate.
    + repeat split; auto.
Qed.

Lemma rename_changes_display_name_only_witness :
  handleRenameUploadLog (fun _ => Some "   ") "a"
    (updateUploadLog "t1" (namesFile "a" "a.jpg") [])
  = updateUploadLog "t1" (namesFile "a" "a.jpg") [].
Proof.
  apply (proj1 (proj2 (proj2
           (rename_changes_display_name_only (fun _ => Some "   ") "a" _)))).
  intros text answer [= <-]. reflexivity.
Defined.

(** ** The submission pipeline, continued *)

Lemma processFile_request_issued (pf : Platform) (amb : Ambient)
    (net : HttpRequest -> FetchResult) (file : File) (st : AppState) :
  webhookUrl (settings st) <> "" ->
  let st' := processFile pf amb net file st in
  isLoading st' = false
  /\ exists req,
       requests st' = req :: requests st
       /\ req_url req = webhookUrl (settings st)
       /\ req_method req = "POST"
       /\ req_body req
          = [ ("file", FormFile file (f_name file));
              ("fileName", FormText (f_name file));
              ("mimeType",
               FormText (JS.orElse (f_type file) "application/octet-stream"));
              ("fileSize", FormText (JS.ofZ (f_size file)));
              ("fileSizeReadable", FormText (formatFileSize (f_size file))) ].
Proof.
  intros Hw st'. unfold st', processFile, processFile_start.
  assert (T : JS.truthy (webhookUrl (settings st)) = true).
  { unfold JS.truthy.
    destruct (String.eqb_spec (webhookUrl (settings st)) "");
      [contradiction|reflexivity]. }
  rewrite T. cbn [negb]. unfold processFile_settle.
  destruct (readPayload pf _) as [thrown|payload].
  - split; [reflexivity|]. eexists. repeat split.
  - cbn [sub_lastPreviewUrl].
    destruct (lastPreviewUrl st) as [u|]; [destruct (JS.truthy u)|];
      (split; [reflexivity|]; eexists; repeat split).
Qed.

(** X13.  With a webhook configured, one call of [processFile] issues
    exactly one request - a POST to the configured URL whose body has the
    file under [file] and the text fields [fileName], [mimeType],
    [fileSize] and [fileSizeReadable] - and leaves the busy flag cleared,
    whatever the webhook answers. *)
Theorem processFile_one_request (pf : Platform) (amb : Ambient)
    (net : HttpRequest -> FetchResult) (file : File) (st : AppState) :
  webhookUrl (settings st) <> "" ->
  let st' := processFile pf amb net file st in
  isLoading st' = false
  /\ exists req,
       requests st' = req :: requests st
       /\ req_url req = webhookUrl (settings st)
       /\ req_method req = "POST"
       /\ req_body req
          = [ ("file", FormFile file (f_name file));
              ("fileName", FormText (f_name file));
              ("mimeType",
               FormText (JS.orElse (f_type file) "application/octet-stream"));
              ("fileSize", FormText (JS.ofZ (f_size file)));
              ("fileSizeReadable", FormText (formatFileSize (f_size file))) ].
Proof. apply processFile_request_issued. Qed.

Lemma processFile_one_request_witness :
  let amb := {| dateNow := 1709287200000;
                isoStarted := "2024-03-01T10:00:00.000Z";
                isoCaptured := "2024-03-01T10:00:01.000Z";
                isoSettled := "2024-03-01T10:00:01.001Z";
                objectUrl := "blob:1" |} in
  let file := {| f_name := "a.jpg"; f_type := ""; f_size := 10240 |} in
  let st := handleSettingsChange
              {| webhookUrl := "https://x.com/hook"; theme := light |}
              initialState in
  isLoading
    (processFile (browserAt 1 false) amb
       (fun _ => FetchRejected ThrownOther) file st) = false.
Proof.
  intros amb file st.
  apply (processFile_one_request (browserAt 1 false) amb _ file st).
  discriminate.
Defined.

Lemma truthy_nonempty (s : string) : s <> "" -> JS.truthy s = true.
Proof.
  intros H. unfold JS.truthy.
  destruct (String.eqb_spec s ""); [contradiction|reflexivity].
Qed.

Lemma fieldOr_default (x : option string) (fallback : string) :
  x = None \/ x = Some "" -> fieldOr x fallback = fallback.
Proof. intros [->| ->]; reflexivity. Qed.

(** X14.  A submission that the webhook answers with a readable payload
    puts exactly one new entry in front of the record store, with the
    file's name as image name and the capture time as key; a field that
    the payload lacks or leaves empty is stored as the empty string, the
    amount as [0].  The entry is also the last result, the error is
    cleared, the preview is replaced (the previous one revoked), the log
    entry of the submission is in front with status [success], and the
    new entry is the first data row of the export. *)
Theorem processFile_success (pf : Platform) (amb : Ambient)
    (net : HttpRequest -> FetchResult) (file : File) (st : AppState)
    (payload : Payload) :
  webhookUrl (settings st) <> "" ->
  (forall req, readPayload pf (net req) = inr payload) ->
  let st' := processFile pf amb net file st in
  let newEntry := entryOfPayload payload (f_name file) (isoCaptured amb) in
  entries st' = newEntry :: entries st
  /\ lastResult st' = Some newEntry
  /\ errorMsg st' = None /\ isLoading st' = false
  /\ lastPreviewUrl st' = Some (objectUrl amb)
  /\ revoked st'
     = match lastPreviewUrl st with
       | Some u => if JS.truthy u then u :: revoked st else revoked st
       | None => revoked st
       end
  /\ (p_vendor payload = None \/ p_vendor payload = Some "" ->
      vendor newEntry = "")
  /\ (p_totalAmount payload = None \/ p_totalAmount payload = Some "" ->
      totalAmount newEntry = "0")
  /\ (exists e,
        hd_error (uploadLog st') = Some e /\ status e = success
        /\ id e = JS.ofZ (dateNow amb) ++ "-" ++ f_name file
        /\ fileName e = f_name file /\ displayName e = f_name file)
  /\ entriesToCSV (entries st')
     = headerLine ++ newline ++ entryLine newEntry ++ entryLines (entries st).
Proof.
  intros Hw Hnet st' newEntry.
  assert (E : entries st' = newEntry :: entries st
              /\ lastResult st' = Some newEntry
              /\ errorMsg st' = None /\ isLoading st' = false
              /\ lastPreviewUrl st' = Some (objectUrl amb)
              /\ revoked st'
                 = match lastPreviewUrl st with
                   | Some u =>
                       if JS.truthy u then u :: revoked st else revoked st
                   | None => revoked st
                   end
              /\ exists e,
                   hd_error (uploadLog st') = Some e /\ status e = success
                   /\ id e = JS.ofZ (dateNow amb) ++ "-" ++ f_name file
                   /\ fileName e = f_name file
                   /\ displayName e = f_name file).
  { unfold st', processFile, processFile_start.
    rewrite (truthy_nonempty _ Hw). cbn [negb]. unfold processFile_settle.
    rewrite Hnet. cbn [sub_lastPreviewUrl sub_file sub_logId].
    destruct (lastPreviewUrl st) as [u|]; [destruct (JS.truthy u)|];
      cbn -[updateUploadLog formatFileSize JS.ofZ JS.orElse];
      rewrite !updateUploadLog_cons;
      (repeat split; eexists; split; [reflexivity|]);
      cbn; rewrite String.eqb_refl; repeat split. }
  destruct E as (E1 & E2 & E3 & E4 & E5 & E6 & E7).
  repeat split; auto.
  - intros H. apply (fieldOr_default _ _ H).
  - intros H. apply (fieldOr_default _ _ H).
  - rewrite E1, entriesToCSV_lines. reflexivity.
Qed.

Lemma processFile_success_witness :
  let amb := {| dateNow := 1709287200000;
                isoStarted := "2024-03-01T10:00:00.000Z";
                isoCaptured := "2024-03-01T10:00:01.000Z";
                isoSettled := "2024-03-01T10:00:01.001Z";
                objectUrl := "blob:1" |} in
  let file := {| f_name := "a.jpg"; f_type := "image/jpeg";
                 f_size := 10240 |} in
  let payload := {| p_vendor := Some "ACME";
                    p_invoiceNumber := Some "INV-1";
                    p_invoiceDate := Some "2024-03-01";
                    p_totalAmount := None |} in
  let pf := {| LocalTZA := fun _ => 3600000; lenientDay := false;
               otherDateParse := fun _ => None;
               urlRestOk := fun _ _ => true;
               JSON_parse := fun _ => Some payload;
               jsonErrorMessage := fun _ => "" |} in
  let net := fun _ : HttpRequest =>
    FetchResponse {| resp_status := 200;
                     resp_contentType := Some "application/json";
                     resp_body := inr "{}" |} in
  let st := handleSettingsChange
              {| webhookUrl := "https://x.com/hook"; theme := dark |}
              initialState in
  entries (processFile pf amb net file st)
  = [ {| vendor := "ACME"; invoiceNumber := "INV-1";
         invoiceDate := Some "2024-03-01"; totalAmount := "0";
         imageName := "a.jpg";
         capturedAt := "2024-03-01T10:00:01.000Z" |} ].
Proof.
  intros amb file payload pf net st.
  apply (processFile_success pf amb net file st payload).
  - discriminate.
  - reflexivity.
Defined.

(** X15.  The answer of the webhook counts as a success exactly when
    [fetch] resolves, the status is 200 to 299, the body can be read and
    parses as JSON, and the body is not empty unless the response is
    labelled [application/json]. *)
Theorem readPayload_succeeds_iff (pf : Platform) (out : FetchResult)
    (payload : Payload) :
  readPayload pf out = inr payload <->
  exists r text,
    out = FetchResponse r
    /\ 200 <= resp_status r <= 299
    /\ resp_body r = inr text
    /\ JSON_parse pf text = Some payload
    /\ (JS.includes "application/json"
          (JS.nullish (resp_contentType r) "") = true
        \/ text <> "").
Proof.
  unfold readPayload. split.
  - destruct out as [t|r]; [discriminate|].
    destruct (resp_ok r) eqn:Ok; cbn [negb]; [|discriminate].
    unfold resp_ok in Ok. apply andb_true_iff in Ok as [O1 O2].
    apply Z.leb_le in O1, O2. rewrite orElse_empty.
    destruct (JS.includes _ _) eqn:I.
    + destruct (resp_body r) as [t|text] eqn:B; [discriminate|].
      destruct (JSON_parse pf text) as [p|] eqn:J; [|discriminate].
      intros [= <-]. exists r, text. repeat split; auto.
    + destruct (resp_body r) as [t|text] eqn:B; [discriminate|].
      destruct (JS.truthy text) eqn:T; cbn [negb]; [|discriminate].
      destruct (JSON_parse pf text) as [p|] eqn:J; [|discriminate].
      intros [= <-]. exists r, text. repeat split; auto.
      right. intros ->. discriminate.
  - intros (r & text & -> & [O1 O2] & B & J & C).
    assert (Ok : resp_ok r = true).
    { unfold resp_ok. apply andb_true_iff. split; apply Z.leb_le; lia. }
    rewrite Ok, B, J, orElse_empty. cbn [negb].
    destruct (JS.includes _ _).
    + reflexivity.
    + destruct C as [C|C]; [discriminate|].
      rewrite (truthy_nonempty _ C). reflexivity.
Qed.

Lemma pipeline_log_invariant (pf : Platform) (amb : Ambient)
    (file : File) (st : AppState) :
  logInvariant (uploadLog st) ->
  logInvariant (uploadLog (fst (processFile_start amb file st)))
  /\ (forall sub out,
        logInvariant (uploadLog (processFile_settle pf amb sub out st)))
  /\ (forall net, logInvariant (uploadLog (processFile pf amb net file st))).
Proof.
  intros H.
  assert (S : forall amb' file' st0,
             logInvariant (uploadLog st0) ->
             logInvariant
               (uploadLog (fst (processFile_start amb' file' st0)))).
  { intros amb' file' st0 H0. unfold processFile_start.
    destruct (negb (JS.truthy (webhookUrl (settings st0)))); [exact H0|].
    cbn -[updateUploadLog].
    apply (applyLogOp_invariant _ (Upsert _ _) H0). }
  assert (T : forall sub out st0,
             logInvariant (uploadLog st0) ->
             logInvariant
               (uploadLog (processFile_settle pf amb sub out st0))).
  { intros sub out st0 H0. unfold processFile_settle.
    destruct (readPayload pf out) as [t|p].
    - cbn -[updateUploadLog].
      apply (applyLogOp_invariant _ (Upsert _ _) H0).
    - destruct (sub_lastPreviewUrl sub) as [u|];
        [destruct (JS.truthy u)|];
        cbn -[updateUploadLog];
        apply (applyLogOp_invariant _ (Upsert _ _) H0). }
  split; [apply S, H|]. split; [intros sub out; apply T, H|].
  intros net. unfold processFile.
  pose proof (S amb file st H) as H1.
  destruct (processFile_start amb file st) as [st1 [sub|]];
    [apply T|]; exact H1.
Qed.

(** X16.  The submission pipeline keeps the upload log within bounds: if
    the log has at most five entries and no id twice, so it has after the
    start of a submission, after its settling in whatever state that
    happens, and after the whole call. *)
Theorem processFile_keeps_log_invariant (pf : Platform) (amb : Ambient)
    (file : File) (st : AppState) :
  logInvariant (uploadLog st) ->
  logInvariant (uploadLog (fst (processFile_start amb file st)))
  /\ (forall sub out,
        logInvariant (uploadLog (processFile_settle pf amb sub out st)))
  /\ (forall net, logInvariant (uploadLog (processFile pf amb net file st))).
Proof. apply pipeline_log_invariant. Qed.

Lemma processFile_keeps_log_invariant_witness :
  let amb := {| dateNow := 1709287200000;
                isoStarted := "2024-03-01T10:00:00.000Z";
                isoCaptured := "2024-03-01T10:00:01.000Z";
                isoSettled := "2024-03-01T10:00:01.001Z";
                objectUrl := "blob:1" |} in
  let file := {| f_name := "a.jpg"; f_type := "image/jpeg";
                 f_size := 10240 |} in
  logInvariant (uploadLog (fst (processFile_start amb file initialState))).
Proof.
  intros amb file.
  apply (processFile_keeps_log_invariant (browserAt 1 false) amb file
           initialState).
  split; [simpl; lia|constructor].
Defined.

(** ** What the application never does *)

Lemma appStep_invariant (pf : Platform) (st : AppState) (op : AppOp) :
  appInvariant pf st -> appInvariant pf (appStep pf st op).
Proof.
  intros (L & W & R).
  assert (K : appInvariant pf st) by (split; [exact L|split; assumption]).
  destruct op as [form|amb file|amb sub out|entry draft|i|confirm|entry|
                  |prompt i|i| |message]; cbn [appStep].
  - unfold settingsSubmit.
    destruct (validateWebhookUrl pf (JS.trim (webhookInput form))) eqn:V;
      cbn [negb snd]; [|exact K].
    split; [exact L|]. split; [right; exact V|exact R].
  - unfold processFile_start.
    destruct (JS.truthy (webhookUrl (settings st))) eqn:T; cbn [negb fst];
      [|exact K].
    split; [|split].
    + cbn -[updateUploadLog].
      apply (applyLogOp_invariant _ (Upsert _ _) L).
    + exact W.
    + cbn -[updateUploadLog]. constructor; [|exact R].
      cbn. split; [|reflexivity].
      destruct W as [W|W]; [rewrite W in T; discriminate|exact W].
  - split; [|split].
    + apply (pipeline_log_invariant pf amb
               {| f_name := ""; f_type := ""; f_size := 0 |} st L).
    + unfold processFile_settle.
      destruct (readPayload pf out);
        [|destruct (sub_lastPreviewUrl sub) as [u|];
          [destruct (JS.truthy u)|]]; exact W.
    + unfold processFile_settle.
      destruct (readPayload pf out);
        [|destruct (sub_lastPreviewUrl sub) as [u|];
          [destruct (JS.truthy u)|]]; exact R.
  - unfold saveEdit. destruct (handleSave pf entry draft); exact K.
  - exact K.
  - unfold handleDeleteAll.
    destruct (List.length (entries st) =? 0)%nat; [exact K|].
    destruct (confirm _); cbn [negb]; [|exact K].
    destruct (lastPreviewUrl st) as [u|]; [destruct (JS.truthy u)|];
      exact K.
  - exact K.
  - exact K.
  - split; [|split; assumption].
    apply (applyLogOp_invariant _ (Rename prompt i) L).
  - split; [|split; assumption].
    apply (applyLogOp_invariant _ (Remove i) L).
  - exact K.
  - exact K.
Qed.

(** X17.  Whatever the user and the network do, starting from the default
    settings: every request the application has issued is a POST to a URL
    that [validateWebhookUrl] accepts (so a file never goes to an address
    the settings form would refuse), the configured webhook is empty or
    such a URL, and the upload log has at most five entries and no id
    twice. *)
Theorem app_only_posts_to_accepted_urls (pf : Platform) (ops : list AppOp) :
  let st := runApp pf ops in
  Forall (fun r => validateWebhookUrl pf (req_url r) = true
                   /\ req_method r = "POST") (requests st)
  /\ (webhookUrl (settings st) = ""
      \/ validateWebhookUrl pf (webhookUrl (settings st)) = true)
  /\ (List.length (uploadLog st) <= 5)%nat
  /\ NoDup (ids (uploadLog st)).
Proof.
  assert (G : forall st0, appInvariant pf st0 ->
                          appInvariant pf (fold_left (appStep pf) ops st0)).
  { induction ops as [|op ops IH]; intros st0 H; simpl; auto.
    apply IH, appStep_invariant, H. }
  destruct (G initialState) as ((L1 & L2) & W & R).
  - split; [split; [simpl; lia|constructor]|]. split; [left; reflexivity|].
    constructor.
  - cbv zeta. unfold runApp. auto.
Qed.

(** ** Deleting and updating stored entries *)

Lemma NoDup_keys_filter (p : Entry -> bool) (es : list Entry) :
  NoDup (keys es) -> NoDup (keys (filter p es)).
Proof.
  unfold keys. induction es as [|e es IH]; simpl; intros H; [constructor|].
  inversion H as [|? ? Hn Hr]; subst.
  destruct (p e); simpl; auto.
  constructor; auto.
  intros Hin. apply Hn. apply in_map_iff in Hin as (x & Hx & Hf).
  apply in_map_iff. exists x. split; [exact Hx|].
  apply filter_In in Hf. tauto.
Qed.

Lemma handleDeleteEntry_twice (i : string) (st : AppState) :
  handleDeleteEntry i (handleDeleteEntry i st) = handleDeleteEntry i st.
Proof.
  destruct st as [se es lo er lr lp ul ed rq rv].
  unfold handleDeleteEntry, setLastResult, setEntries. cbn. f_equal.
  - apply filter_all. intros e He. apply filter_In in He. tauto.
  - destruct lr as [p|]; [|reflexivity].
    destruct (String.eqb (capturedAt p) i) eqn:E; [reflexivity|].
    rewrite E. reflexivity.
Qed.

(** X18.  Deleting by key removes exactly the entries with that key and
    keeps the others in their order; a key that is not in the store
    leaves the store as it is; different keys stay different; the upload
    log is not touched; the last result is dropped if it had the key and
    kept otherwise; deleting twice is deleting once. *)
Theorem delete_entry (i : string) (st : AppState) :
  let st' := handleDeleteEntry i st in
  keys (entries st') = filter (notId i) (keys (entries st))
  /\ (forall e, In e (entries st') <-> In e (entries st) /\ capturedAt e <> i)
  /\ ((forall e, In e (entries st) -> capturedAt e <> i) ->
      entries st' = entries st)
  /\ (NoDup (keys (entries st)) -> NoDup (keys (entries st')))
  /\ uploadLog st' = uploadLog st
  /\ (forall p, lastResult st = Some p ->
        lastResult st' = if String.eqb (capturedAt p) i then None else Some p)
  /\ handleDeleteEntry i st' = st'.
Proof.
  cbv zeta. unfold handleDeleteEntry.
  cbn [setLastResult setEntries entries uploadLog lastResult].
  split; [|split; [|split; [|split; [|split; [|split]]]]].
  - unfold keys. induction (entries st) as [|e es IH]; simpl; auto.
    change (notId i (capturedAt e))
      with (negb (String.eqb (capturedAt e) i)).
    destruct (String.eqb (capturedAt e) i); simpl; congruence.
  - intros e. rewrite filter_In. split; intros [H1 H2]; split; auto.
    + intros E. rewrite E, String.eqb_refl in H2. discriminate.
    + apply negb_true_iff, String.eqb_neq, H2.
  - intros H. apply filter_all. intros e He.
    apply negb_true_iff, String.eqb_neq, (H e He).
  - apply NoDup_keys_filter.
  - reflexivity.
  - intros p ->. reflexivity.
  - apply handleDeleteEntry_twice.
Qed.

Lemma delete_entry_witness :
  let e := {| vendor := "ACME"; invoiceNumber := "INV-1";
              invoiceDate := Some "2024-03-01"; totalAmount := "19.99";
              imageName := "a.jpg"; capturedAt := "t1" |} in
  let st := setEntries (fun _ => [e]) initialState in
  entries (handleDeleteEntry "t2" st) = entries st.
Proof.
  intros e st.
  apply (proj1 (proj2 (proj2 (delete_entry "t2" st)))).
  intros x [<-|[]]. discriminate.
Defined.

(** X19.  [Delete all] asks nothing and changes nothing when the store is
    empty, and changes nothing when the user declines.  When the user
    agrees to the question, which names the number of entries, the store
    and the last result are emptied, a preview is revoked and forgotten,
    there is no export left, and settings and upload log stay. *)
Theorem delete_all (confirm : string -> bool) (st : AppState) :
  let st' := handleDeleteAll confirm st in
  (entries st = [] -> st' = st)
  /\ ((forall question, confirm question = false) -> st' = st)
  /\ (entries st <> [] ->
      confirm ("Möchtest du wirklich alle "
               ++ JS.ofZ (Z.of_nat (List.length (entries st)))
               ++ " Einträge entfernen?") = true ->
      entries st' = [] /\ lastResult st' = None /\ csvExport st' = None
      /\ settings st' = settings st /\ uploadLog st' = uploadLog st
      /\ requests st' = requests st
      /\ forall u, lastPreviewUrl st = Some u -> u <> "" ->
           lastPreviewUrl st' = None /\ revoked st' = u :: revoked st).
Proof.
  cbv zeta. unfold handleDeleteAll. split; [|split].
  - intros ->. reflexivity.
  - intros H. destruct (List.length (entries st) =? 0)%nat; [reflexivity|].
    rewrite H. reflexivity.
  - intros Hne Hc.
    destruct (Nat.eqb_spec (List.length (entries st)) 0) as [E|_];
      [apply length_zero_iff_nil in E; contradiction|].
    rewrite Hc. cbn [negb].
    destruct (lastPreviewUrl st) as [u|] eqn:P.
    + destruct (JS.truthy u) eqn:T; cbn; do 6 (split; [reflexivity|]).
      * intros u' [= <-] _. split; reflexivity.
      * intros u' [= <-] Hu. rewrite (truthy_nonempty _ Hu) in T.
        discriminate.
    + cbn. do 6 (split; [reflexivity|]). intros u' H. discriminate H.
Qed.

Lemma delete_all_witness :
  handleDeleteAll (fun _ => true) initialState = initialState.
Proof.
  apply (proj1 (delete_all (fun _ => true) initialState)). reflexivity.
Defined.

(** X20.  Handing an updated entry to the store never changes the keys
    or the number of entries: each entry with the key of the update
    becomes the update, every other entry stays; an update whose key is
    not in the store leaves the store as it is.  The last result follows
    if it has the key, the edit sheet is closed, and the upload log is
    not touched. *)
Theorem update_entry (u : Entry) (st : AppState) :
  let st' := handleUpdateEntry u st in
  keys (entries st') = keys (entries st)
  /\ (forall n e,
        nth_error (entries st) n = Some e ->
        nth_error (entries st') n
        = Some (if String.eqb (capturedAt e) (capturedAt u) then u else e))
  /\ ((forall e, In e (entries st) -> capturedAt e <> capturedAt u) ->
      entries st' = entries st)
  /\ (forall p, lastResult st = Some p ->
        lastResult st'
        = Some (if String.eqb (capturedAt p) (capturedAt u) then u else p))
  /\ editingEntry st' = None
  /\ uploadLog st' = uploadLog st.
Proof.
  cbv zeta. unfold handleUpdateEntry.
  cbn [setEditingEntry setLastResult setEntries entries lastResult
       editingEntry uploadLog].
  assert (S : forall e, spreadEntry e u = u) by (intros; destruct u; reflexivity).
  split; [|split; [|split; [|split; [|split]]]]; try reflexivity.
  - unfold keys. rewrite map_map. apply map_ext. intros e.
    destruct (String.eqb_spec (capturedAt e) (capturedAt u)) as [E|E];
      [rewrite S; auto|reflexivity].
  - intros n e He. rewrite nth_error_map, He. cbn [option_map].
    destruct (String.eqb (capturedAt e) (capturedAt u));
      [rewrite S|]; reflexivity.
  - intros H. rewrite <- (map_id (entries st)) at 2. apply map_ext_in.
    intros e He.
    destruct (String.eqb_spec (capturedAt e) (capturedAt u)) as [E|E];
      [destruct (H e He E)|reflexivity].
  - intros p ->.
    destruct (String.eqb (capturedAt p) (capturedAt u));
      [rewrite S|]; reflexivity.
Qed.

Lemma update_entry_witness :
  let e := {| vendor := "ACME"; invoiceNumber := "INV-1";
              invoiceDate := Some "2024-03-01"; totalAmount := "19.99";
              imageName := "a.jpg"; capturedAt := "t1" |} in
  let u := {| vendor := "Globex"; invoiceNumber := "7";
              invoiceDate := None; totalAmount := "5";
              imageName := "b.pdf"; capturedAt := "t2" |} in
  let st := setEntries (fun _ => [e]) initialState in
  entries (handleUpdateEntry u st) = entries st.
Proof.
  intros e u st.
  apply (proj1 (proj2 (proj2 (update_entry u st)))).
  intros x [<-|[]]. discriminate.
Defined.

(** ** Saving from the edit forms *)

Lemma draftOf_fields (e : Entry) :
  d_vendor (draftOf e) = vendor e
  /\ d_invoiceNumber (draftOf e) = invoiceNumber e
  /\ d_totalAmount (draftOf e) = totalAmount e
  /\ d_invoiceDate (draftOf e) = formatDate (invoiceDate e).
Proof. unfold draftOf. cbn. rewrite !orElse_empty. auto. Qed.

(** X21.  In every browser: an entry whose date [formatDate] shows as
    [N/A] - no date, an empty one, or one without an ISO prefix - cannot
    be saved from a form opened on it until the date field is changed,
    since the form offers [N/A] and [parseGermanDate] refuses it; the
    store stays as it is.  Emptying the date field always saves, and
    stores the entry without a date. *)
Theorem dateless_entry_needs_date_change (pf : Platform) (e : Entry)
    (st : AppState) :
  (formatDate (invoiceDate e) = "N/A" ->
   handleSave pf e (draftOf e) = inl dateErrorMessage
   /\ saveEdit pf e (draftOf e) st = st)
  /\ (forall draft,
        d_invoiceDate draft = "" ->
        handleSave pf e draft
        = inr {| vendor := d_vendor draft;
                 invoiceNumber := d_invoiceNumber draft;
                 invoiceDate := None;
                 totalAmount := d_totalAmount draft;
                 imageName := imageName e;
                 capturedAt := capturedAt e |})
  /\ handleSave pf e (handleChange "invoiceDate" "" (draftOf e))
     = inr {| vendor := vendor e; invoiceNumber := invoiceNumber e;
              invoiceDate := None; totalAmount := totalAmount e;
              imageName := imageName e; capturedAt := capturedAt e |}.
Proof.
  split; [|split].
  - intros H.
    assert (S : handleSave pf e (draftOf e) = inl dateErrorMessage).
    { apply handleSave_blocked.
      - unfold draftOf. cbn. rewrite H. discriminate.
      - unfold draftOf. cbn. rewrite H.
        apply parseGermanDate_rejects_malformed.
        intros d m y M. apply matchGermanDate_spec in M. discriminate M. }
    split; [exact S|]. unfold saveEdit. rewrite S. reflexivity.
  - intros draft H. unfold handleSave. rewrite H. reflexivity.
  - unfold handleSave, handleChange, draftOf. cbn.
    rewrite !orElse_empty. reflexivity.
Qed.

Lemma dateless_entry_needs_date_change_witness :
  let e := entryOfPayload
             {| p_vendor := Some "ACME"; p_invoiceNumber := None;
                p_invoiceDate := None; p_totalAmount := Some "5" |}
             "a.jpg" "2024-03-01T10:00:01.000Z" in
  handleSave (browserAt 1 false) e (draftOf e) = inl dateErrorMessage
  /\ saveEdit (browserAt 1 false) e (draftOf e) initialState = initialState.
Proof.
  intros e.
  apply (proj1 (dateless_entry_needs_date_change (browserAt 1 false) e
                  initialState)).
  reflexivity.
Defined.

Lemma isIsoDate_nonempty (d : string) : isIsoDate d -> JS.truthy d = true.
Proof.
  intros (y & m & dd & [Ly _] & _ & _ & -> & _).
  apply truthy_length. rewrite length_app_s. lia.
Qed.

(** X22.  Saving a form as it was opened, on an entry whose date is a
    calendar date written [YYYY-MM-DD]: at or east of Greenwich the save
    hands on the entry itself, and a store with different keys that holds
    the entry is left with the same entries; west of Greenwich the save
    is refused with the date error. *)
Theorem unchanged_save_depends_on_time_zone (pf : Platform) (e : Entry)
    (d : string) (st : AppState) :
  invoiceDate e = Some d -> isIsoDate d ->
  (eastOfGreenwich pf ->
   handleSave pf e (draftOf e) = inr e
   /\ (NoDup (keys (entries st)) -> In e (entries st) ->
       entries (saveEdit pf e (draftOf e) st) = entries st))
  /\ (westOfGreenwich pf ->
      handleSave pf e (draftOf e) = inl dateErrorMessage
      /\ saveEdit pf e (draftOf e) st = st).
Proof.
  intros Hd Hi.
  pose proof Hi as (y & m & dd & Hy & Hm & Hdd & Ed & V).
  destruct (formatDate_isoDate y m dd Hy Hm Hdd) as (F & M & _ & Ey).
  rewrite <- Ed in F.
  assert (T : JS.truthy (formatDate (Some d)) = true).
  { rewrite F. apply truthy_length. rewrite length_app_s.
    destruct Hdd as [-> _]. lia. }
  split.
  - intros He.
    assert (S : handleSave pf e (draftOf e) = inr e).
    { unfold handleSave.
      destruct (draftOf_fields e) as (-> & -> & -> & ->).
      rewrite Hd, T, (formatDate_roundtrip_east pf d He Hi).
      unfold missing. rewrite (isIsoDate_nonempty d Hi). cbn [negb andb].
      destruct e; cbn in *. subst. reflexivity. }
    split; [exact S|]. intros Hn Hin. unfold saveEdit. rewrite S.
    unfold handleUpdateEntry.
    cbn [setEditingEntry setLastResult setEntries entries].
    rewrite <- (map_id (entries st)) at 2. apply map_ext_in.
    intros x Hx.
    destruct (String.eqb_spec (capturedAt x) (capturedAt e)) as [E|E];
      [|reflexivity].
    rewrite (NoDup_map_eq capturedAt (entries st) x e Hn Hx Hin E).
    destruct e; reflexivity.
  - intros Hw.
    assert (S : handleSave pf e (draftOf e) = inl dateErrorMessage).
    { apply handleSave_blocked.
      - destruct (draftOf_fields e) as (_ & _ & _ & ->). rewrite Hd.
        intros Z. rewrite Z in T. discriminate.
      - destruct (draftOf_fields e) as (_ & _ & _ & ->). rewrite Hd, F.
        apply (parseGermanDate_west pf _ dd m y Hw M).
        + destruct Hy as [-> _]. discriminate.
        + unfold denotesDate. rewrite Ey. exact V. }
    split; [exact S|]. unfold saveEdit. rewrite S. reflexivity.
Qed.

Lemma unchanged_save_depends_on_time_zone_witness :
  let e := {| vendor := "ACME"; invoiceNumber := "INV-1";
              invoiceDate := Some "2024-03-01"; totalAmount := "19.99";
              imageName := "a.jpg";
              capturedAt := "2024-03-01T10:00:01.000Z" |} in
  handleSave (browserAt (-5) false) e (draftOf e) = inl dateErrorMessage
  /\ saveEdit (browserAt (-5) false) e (draftOf e) initialState
     = initialState.
Proof.
  intros e.
  apply (proj2 (unchanged_save_depends_on_time_zone (browserAt (-5) false)
                  e "2024-03-01" initialState eq_refl
                  ltac:(exists "2024", "03", "01"; repeat split; evaluate))).
  intros t. unfold EcmaDate.msPerDay. cbn. lia.
Defined.

(** ** The settings form *)

(** X23.  Submitting the settings form with an input that
    [validateWebhookUrl] refuses after trimming - a blank input included,
    so that a configured webhook cannot be emptied - changes nothing but
    the form's error.  Otherwise the trimmed input becomes the webhook and
    the selected theme the theme, records, log and requests stay, and from
    then on a submission is started instead of failing for want of a
    webhook. *)
Theorem settings_form_stores_accepted_urls_only (pf : Platform)
    (form : SettingsForm) (st : AppState) :
  let form' := fst (settingsSubmit pf form st) in
  let st' := snd (settingsSubmit pf form st) in
  (validateWebhookUrl pf (JS.trim (webhookInput form)) = false ->
   st' = st /\ formError form' <> None /\ feedback form' = None)
  /\ (JS.trim (webhookInput form) = "" -> st' = st)
  /\ (validateWebhookUrl pf (JS.trim (webhookInput form)) = true ->
      webhookUrl (settings st') = JS.trim (webhookInput form)
      /\ theme (settings st') = selectedTheme form
      /\ webhookConfigured st' = true
      /\ formError form' = None
      /\ entries st' = entries st /\ uploadLog st' = uploadLog st
      /\ requests st' = requests st
      /\ forall amb file, snd (processFile_start amb file st') <> None).
Proof.
  cbv zeta. unfold settingsSubmit. split; [|split].
  - intros ->. cbn. repeat split. discriminate.
  - intros ->. reflexivity.
  - intros V. rewrite V. cbn [negb fst snd].
    assert (T : JS.truthy (JS.trim (webhookInput form)) = true).
    { unfold validateWebhookUrl in V.
      destruct (JS.truthy (JS.trim (webhookInput form)));
        [reflexivity|discriminate]. }
    do 2 (split; [reflexivity|]). split; [exact T|].
    do 4 (split; [reflexivity|]).
    intros amb file. unfold processFile_start.
    cbn [handleSettingsChange setSettings settings webhookUrl].
    rewrite T. discriminate.
Qed.

Lemma settings_form_stores_accepted_urls_only_witness :
  let form := {| webhookInput := "   "; selectedTheme := light;
                 feedback := None; formError := None |} in
  snd (settingsSubmit (browserAt 1 false) form initialState) = initialState.
Proof.
  intros form.
  apply (proj1 (proj2 (settings_form_stores_accepted_urls_only
                         (browserAt 1 false) form initialState))).
  reflexivity.
Defined.

(** ** Camera captures *)

(** X24.  With a webhook configured, a camera capture is submitted as a
    file named [scan_], the time in milliseconds and [.jpg]; its MIME type
    field is the type of the blob, or [image/jpeg] when the blob has none,
    so the fallback [application/octet-stream] is never sent for it. *)
Theorem camera_capture_request (pf : Platform) (amb : Ambient)
    (net : HttpRequest -> FetchResult) (now : Z) (blob : Blob)
    (st : AppState) :
  webhookUrl (settings st) <> "" ->
  exists req,
    requests (handleCameraCapture pf amb net now blob st)
    = req :: requests st
    /\ req_url req = webhookUrl (settings st)
    /\ In ("fileName", FormText ("scan_" ++ JS.ofZ now ++ ".jpg"))
         (req_body req)
    /\ In ("mimeType",
           FormText (if String.eqb (b_type blob) "" then "image/jpeg"
                     else b_type blob))
         (req_body req)
    /\ In ("fileSize", FormText (JS.ofZ (b_size blob))) (req_body req).
Proof.
  intros Hw. unfold handleCameraCapture.
  destruct (processFile_request_issued pf amb net
              {| f_name := "scan_" ++ JS.ofZ now ++ ".jpg";
                 f_type := JS.orElse (b_type blob) "image/jpeg";
                 f_size := b_size blob |} st Hw)
    as (_ & req & R & U & _ & B).
  exists req. split; [exact R|]. split; [exact U|].
  rewrite B. cbn [f_name f_type f_size].
  assert (E : JS.orElse (JS.orElse (b_type blob) "image/jpeg")
                "application/octet-stream"
              = if String.eqb (b_type blob) "" then "image/jpeg"
                else b_type blob).
  { unfold JS.orElse, JS.truthy.
    destruct (String.eqb_spec (b_type blob) "") as [->|N]; cbn [negb].
    - reflexivity.
    - destruct (String.eqb_spec (b_type blob) ""); [contradiction|].
      reflexivity. }
  rewrite E. cbn [In]. auto 10.
Qed.

Lemma camera_capture_request_witness :
  let amb := {| dateNow := 1709287200001;
                isoStarted := "2024-03-01T10:00:00.001Z";
                isoCaptured := "2024-03-01T10:00:01.000Z";
                isoSettled := "2024-03-01T10:00:01.001Z";
                objectUrl := "blob:1" |} in
  let st := handleSettingsChange
              {| webhookUrl := "https://x.com/hook"; theme := dark |}
              initialState in
  let blob := {| b_type := ""; b_size := 2048 |} in
  exists req,
    requests (handleCameraCapture (browserAt 1 false) amb
                (fun _ => FetchRejected ThrownOther) 1709287200000 blob st)
    = req :: requests st
    /\ req_url req = webhookUrl (settings st)
    /\ In ("fileName", FormText ("scan_" ++ JS.ofZ 1709287200000 ++ ".jpg"))
         (req_body req)
    /\ In ("mimeType", FormText "image/jpeg") (req_body req)
    /\ In ("fileSize", FormText (JS.ofZ 2048)) (req_body req).
Proof.
  intros amb st blob.
  apply (camera_capture_request (browserAt 1 false) amb _ 1709287200000
           blob st).
  discriminate.
Defined.

(** ** URLs without a scheme *)

Lemma schemeState_colon (s sch rest : string) :
  UrlParser.schemeState s = Some (sch, rest) -> occurs ":" s = true.
Proof.
  revert sch rest.
  induction s as [|c s IH]; intros sch rest; simpl; [discriminate|].
  destruct (Ascii.eqb c ":"); [reflexivity|].
  destruct (UrlParser.isSchemeChar c); [|discriminate].
  destruct (UrlParser.schemeState s) as [[sch' rest']|]; [|discriminate].
  intros _. simpl. apply (IH sch' rest' eq_refl).
Qed.

Lemma occurs_removeTabNewline (c : ascii) (s : string) :
  occurs c (UrlParser.removeTabNewline s) = true -> occurs c s = true.
Proof.
  induction s as [|a s IH]; simpl; [auto|].
  destruct (UrlParser.isTabOrNewline a); simpl.
  - intros H. rewrite (IH H). apply orb_true_r.
  - destruct (Ascii.eqb a c); [reflexivity|]. exact IH.
Qed.

Lemma occurs_stripEnd (c : ascii) (s : string) :
  occurs c (UrlParser.stripEnd s) = true -> occurs c s = true.
Proof.
  induction s as [|a s IH]; simpl; [auto|].
  destruct (UrlParser.stripEnd s) as [|b r].
  - destruct (UrlParser.isC0OrSpace a); simpl; [discriminate|].
    rewrite orb_false_r. intros ->. reflexivity.
  - simpl in *. destruct (Ascii.eqb a c); [reflexivity|]. exact IH.
Qed.

Lemma occurs_stripStart (c : ascii) (s : string) :
  occurs c (UrlParser.stripStart s) = true -> occurs c s = true.
Proof.
  induction s as [|a s IH]; simpl; [auto|].
  destruct (UrlParser.isC0OrSpace a); simpl.
  - intros H. rewrite (IH H). apply orb_true_r.
  - auto.
Qed.

(** X25.  In every browser, whatever its URL parser accepts after a
    scheme, [validateWebhookUrl] refuses a string without a colon: an
    address without its scheme, such as a bare host name, is never
    accepted. *)
Theorem url_without_colon_is_refused (pf : Platform) (url : string) :
  occurs ":" url = false -> validateWebhookUrl pf url = false.
Proof.
  intros H. unfold validateWebhookUrl, UrlParser.parse.
  destruct (negb (JS.truthy url)); [reflexivity|].
  destruct (UrlParser.scanScheme _) as [[sch rest]|] eqn:S; [|reflexivity].
  exfalso.
  assert (C : occurs ":"
                (UrlParser.removeTabNewline
                   (UrlParser.stripEnd (UrlParser.stripStart url))) = true).
  { unfold UrlParser.scanScheme in S.
    destruct (UrlParser.removeTabNewline _) as [|c r]; [discriminate|].
    destruct (UrlParser.isAlpha c); [|discriminate].
    destruct (UrlParser.schemeState r) as [[sch' rest']|] eqn:E;
      [|discriminate].
    simpl. rewrite (schemeState_colon r sch' rest' E). apply orb_true_r. }
  apply occurs_removeTabNewline, occurs_stripEnd, occurs_stripStart in C.
  rewrite C in H. discriminate.
Qed.

Lemma url_without_colon_is_refused_witness :
  validateWebhookUrl (browserAt 1 false) "x.com/hook" = false.
Proof.
  apply url_without_colon_is_refused. reflexivity.
Defined.
